(** * ideas.py: the idea store, the edit dialog and the move-mode loop

    A shallow embedding of [src/ideas.py].  The SQLite table [ideas] is a
    list of rows kept in rowid order, every SQL statement of the program is
    a function on that list, and one iteration of the [while True] loop of
    [main] is the function [loop_body] on the loop's local variables.

    Modelling choices:
    - [ORDER BY] is a stable sort of the table scan: rows with equal keys
      come out in rowid order.
    - The INTEGER columns are unbounded integers, as Python's [int] is.
    - What the user does arrives in an [event]: the key read by
      [stdscr.getch()], the height of the terminal, and the keys typed in
      the prompt or dialog that the key opens.  A dialog that has used up
      its keys is still waiting ([Waits]).
    - Drawing assigns to no variable of the loop and is left out, and so
      are the errors of curses and of SQLite. *)

From Stdlib Require Import ZArith Lia String Ascii.
From stdpp Require Import base option list numbers sorting strings.

Local Open Scope Z_scope.

(** ** Python values *)

(** A Python [str] is a sequence of Unicode code points. *)
Definition pystr := list Z.

Definition ord (c : ascii) : Z := Z.of_N (N_of_ascii c).

Fixpoint str_of (s : string) : pystr :=
  match s with
  | EmptyString => []
  | String c s' => ord c :: str_of s'
  end.

Definition len {A} (l : list A) : Z := Z.of_nat (length l).

(** [str.isspace] on one code point: the Unicode white space characters. *)
Definition py_isspace (c : Z) : bool :=
  ((9 <=? c) && (c <=? 13)) || ((28 <=? c) && (c <=? 32))
  || (c =? 133) || (c =? 160) || (c =? 5760)
  || ((8192 <=? c) && (c <=? 8202))
  || (c =? 8232) || (c =? 8233) || (c =? 8239) || (c =? 8287) || (c =? 12288).

Fixpoint lstrip (s : pystr) : pystr :=
  match s with
  | [] => []
  | c :: s' => if py_isspace c then lstrip s' else s
  end.

Definition rstrip (s : pystr) : pystr := rev (lstrip (rev s)).

(** [s.strip()] *)
Definition strip (s : pystr) : pystr := rstrip (lstrip s).

Definition is_empty_str (s : pystr) : bool :=
  match s with [] => true | _ => false end.

(** [l[i]]: a negative index counts from the end, anything out of range
    raises [IndexError] (here [None]). *)
Definition py_index {A} (l : list A) (i : Z) : option nat :=
  let j := if i <? 0 then i + len l else i in
  if (0 <=? j) && (j <? len l) then Some (Z.to_nat j) else None.

Definition py_getitem {A} (l : list A) (i : Z) : option A :=
  j ← py_index l i; l !! j.

(** [l[i] = x] *)
Definition py_setitem {A} (l : list A) (i : Z) (x : A) : option (list A) :=
  j ← py_index l i; Some (<[j := x]> l).

(** [l[i], l[j] = l[j], l[i]]: both right-hand reads come first, then the
    two stores from left to right. *)
Definition py_swap {A} (l : list A) (i j : Z) : option (list A) :=
  x ← py_getitem l j;
  y ← py_getitem l i;
  l1 ← py_setitem l i x;
  py_setitem l1 j y.

(** ** The record store *)

(** One row of the table, in the column order of the SELECT of [get_ideas]:
    [(id, title, pos, created_date, notes, archived)]. *)
Record idea := Idea {
  idea_id : Z;
  title : pystr;
  pos : Z;
  created_date : pystr;
  notes : pystr;
  archived : Z
}.

(** The connection: the rows of [ideas] in rowid order, and the largest
    rowid ever handed out (the [sqlite_sequence] entry that AUTOINCREMENT
    keeps for the table). *)
Record conn := Conn {
  ideas_table : list idea;
  sqlite_sequence : Z
}.

Definition ids (t : list idea) : list Z := map idea_id t.

(** [CREATE TABLE IF NOT EXISTS] on a fresh file. *)
Definition init_db : conn := Conn [] 0.

(** [SELECT MAX(pos) FROM ideas]: NULL ([None]) on an empty table. *)
Fixpoint select_max_pos (t : list idea) : option Z :=
  match t with
  | [] => None
  | r :: t' =>
      match select_max_pos t' with
      | None => Some (pos r)
      | Some m => Some (Z.max (pos r) m)
      end
  end.

(** The rowid AUTOINCREMENT gives to an inserted row: one more than every
    rowid that exists or ever existed. *)
Definition next_rowid (c : conn) : Z :=
  1 + foldr Z.max (sqlite_sequence c) (ids (ideas_table c)).

Definition add_idea (c : conn) (new_title new_notes today : pystr) : conn :=
  let max_pos := select_max_pos (ideas_table c) in
  let new_pos := match max_pos with None => 0 | Some m => m + 1 end in
  let new_id := next_rowid c in
  Conn (ideas_table c ++ [Idea new_id new_title new_pos today new_notes 0])
       new_id.

(** [DELETE FROM ideas WHERE id = ?] *)
Definition delete_idea (c : conn) (id : Z) : conn :=
  Conn (filter (fun r => idea_id r ≠ id) (ideas_table c)) (sqlite_sequence c).

(** The two values [current_order] takes in [main]: ['pos'] and
    ['created_date'] (every other string falls back to ['pos'] in
    [get_ideas], and [main] never passes one). *)
Inductive order := ByPos | ByCreatedDate.

(** Comparison of TEXT values (BINARY collation: code point by code point,
    a proper prefix first). *)
Fixpoint str_leb (a b : pystr) : bool :=
  match a, b with
  | [], _ => true
  | _ :: _, [] => false
  | x :: a', y :: b' =>
      if x <? y then true else if y <? x then false else str_leb a' b'
  end.

Definition row_leb (o : order) (r1 r2 : idea) : bool :=
  match o with
  | ByPos => pos r1 <=? pos r2
  | ByCreatedDate => str_leb (created_date r1) (created_date r2)
  end.

(** [ORDER BY]: the rows are sorted on the one key, rows with equal keys
    stay in rowid order (a stable insertion sort of the table scan). *)
Fixpoint insert_row (leb : idea -> idea -> bool) (x : idea) (l : list idea)
  : list idea :=
  match l with
  | [] => [x]
  | y :: l' => if leb x y then x :: y :: l' else y :: insert_row leb x l'
  end.

Definition order_rows (leb : idea -> idea -> bool) (t : list idea) : list idea :=
  foldr (insert_row leb) [] t.

Definition get_ideas (c : conn) (order_by : order) : list idea :=
  order_rows (row_leb order_by) (ideas_table c).

Definition set_pos (p : Z) (r : idea) : idea :=
  Idea (idea_id r) (title r) p (created_date r) (notes r) (archived r).

Definition set_archived (a : Z) (r : idea) : idea :=
  Idea (idea_id r) (title r) (pos r) (created_date r) (notes r) a.

Definition set_info (t n : pystr) (r : idea) : idea :=
  Idea (idea_id r) t (pos r) (created_date r) n (archived r).

(** [UPDATE ideas SET ... WHERE id = ?] *)
Definition sql_update (f : idea -> idea) (id : Z) (t : list idea) : list idea :=
  map (fun r => if idea_id r =? id then f r else r) t.

(** The [for new_pos, idea in enumerate(ideas_order)] loop, [new_pos] being
    the counter of [enumerate]. *)
Fixpoint update_rows_from (new_pos : Z) (ideas_order t : list idea) : list idea :=
  match ideas_order with
  | [] => t
  | idea :: rest =>
      update_rows_from (new_pos + 1) rest
        (sql_update (set_pos new_pos) (idea_id idea) t)
  end.

Definition update_idea_order (c : conn) (ideas_order : list idea) : conn :=
  Conn (update_rows_from 0 ideas_order (ideas_table c)) (sqlite_sequence c).

(** Truth value of a Python int. *)
Definition py_bool (n : Z) : bool := negb (n =? 0).

Definition toggle_idea_archived (c : conn) (id : Z) (current_archived : Z) : conn :=
  let new_archived := if py_bool current_archived then 0 else 1 in
  Conn (sql_update (set_archived new_archived) id (ideas_table c))
       (sqlite_sequence c).

Definition update_idea_info (c : conn) (id : Z) (t n : pystr) : conn :=
  Conn (sql_update (set_info t n) id (ideas_table c)) (sqlite_sequence c).

(** The row with a given id, as [SELECT ... WHERE id = ?] would return it. *)
Definition find_idea (c : conn) (id : Z) : option idea :=
  List.find (fun r => idea_id r =? id) (ideas_table c).

(** ** Keys *)

(** Key codes of the curses module (ncurses values). *)
Definition KEY_DOWN : Z := 258.
Definition KEY_UP : Z := 259.
Definition KEY_BACKSPACE : Z := 263.
Definition KEY_DC : Z := 330.
Definition KEY_ENTER : Z := 343.
Definition KEY_RESIZE : Z := 410.
Definition ESC : Z := 27.

(** ** The dialog *)

Inductive exn := IndexError | ValueError | TypeError.

(** Result of a call that reads keys: it returns, raises, or is still
    waiting in [getch] when the keys typed so far are used up. *)
Inductive reading (A : Type) :=
  | Returns (a : A)
  | Raises (e : exn)
  | Waits.
Arguments Returns {A} a.
Arguments Raises {A} e.
Arguments Waits {A}.

(** [chr(ch)] is defined on [range(0x110000)]. *)
Definition chr (ch : Z) : option Z :=
  if (0 <=? ch) && (ch <? 1114112) then Some ch else None.

(** [get_line_with_esc]: [s] is the text typed so far, [keys] what [getch]
    delivers from now on.  [None] is the cancellation by ESC. *)
Fixpoint get_line_with_esc (max_length : Z) (s : pystr) (keys : list Z)
  : reading (option pystr) :=
  match keys with
  | [] => Waits
  | ch :: keys' =>
      if ch =? ESC then Returns None
      else if (ch =? KEY_ENTER) || (ch =? ord "010") then Returns (Some s)
      else if (ch =? KEY_BACKSPACE) || (ch =? 127) || (ch =? 8) then
        if len s >? 0 then get_line_with_esc max_length (removelast s) keys'
        else get_line_with_esc max_length s keys'
      else if len s <? max_length then
        match chr ch with
        | Some c => get_line_with_esc max_length (s ++ [c]) keys'
        | None => Raises ValueError
        end
      else get_line_with_esc max_length s keys'
  end.

(** What [curses.textpad.Textbox(edit_win).edit(notes_validator)] does:
    ESC makes [notes_validator] raise [KeyboardInterrupt], otherwise the
    call returns the text gathered from the edit window. *)
Inductive textbox := TextboxEsc | TextboxText (gathered : pystr).

(** What the user does in one dialog. *)
Record dialog_input := DialogInput {
  title_keys : list Z;
  notes_edit : textbox;
  confirm_keys : list Z
}.

(** The [while True] loop of the confirmation prompt. *)
Fixpoint confirm_prompt (keys : list Z) : reading bool :=
  match keys with
  | [] => Waits
  | key :: keys' =>
      if (key =? ord "y") || (key =? ord "Y") then Returns true
      else if (key =? ord "n") || (key =? ord "N") || (key =? ESC) then Returns false
      else confirm_prompt keys'
  end.

(** Dialog width. *)
Definition dw : Z := 70.

Definition dialog_template_idea (inp : dialog_input) (init_title init_notes : pystr)
  : reading (option (pystr * pystr)) :=
  match get_line_with_esc (dw - 4) [] (title_keys inp) with
  | Waits => Waits
  | Raises e => Raises e
  | Returns None => Returns None
  | Returns (Some typed) =>
      let new_title := if is_empty_str (strip typed) then init_title else typed in
      match notes_edit inp with
      | TextboxEsc => Returns None
      | TextboxText gathered =>
          let new_notes := strip gathered in
          match confirm_prompt (confirm_keys inp) with
          | Waits => Waits
          | Raises e => Raises e
          | Returns true => Returns (Some (new_title, new_notes))
          | Returns false => Returns None
          end
      end
  end.

Definition new_idea_dialog (inp : dialog_input) := dialog_template_idea inp [] [].

Definition edit_idea_dialog (inp : dialog_input) (init_title init_notes : pystr) :=
  dialog_template_idea inp init_title init_notes.

(** ** The main loop *)

(** The local variables of [main] that live across iterations.  [None] is
    Python's [None]. *)
Record state := State {
  db : conn;
  current_order : order;
  current_selection : Z;
  moving_idea_index : option Z;
  reorder_list : option (list idea);
  scroll_offset : Z
}.

(** What one iteration of the loop receives from outside: the terminal
    height, the key returned by [stdscr.getch()], and what the user does in
    the prompt or dialog that the key opens ([order_choice] is the answer
    to the ordering prompt, already decoded, stripped and lower-cased), and
    today's date as [strftime] formats it. *)
Record event := Event {
  max_y : Z;
  key : Z;
  order_choice : pystr;
  dialog : dialog_input;
  today : pystr
}.

(** How an iteration ends: at the next iteration (with or without a
    [curses.flash()]), at [break], with an uncaught exception, or never
    (the dialog still waits for keys). *)
Inductive outcome :=
  | Continue (st : state) (flash : bool)
  | Break
  | Raised (e : exn)
  | Waiting.

Definition visible_of (ev : event) : Z := (max_y ev - 2) `div` 2.

(** Lines 251-254: the list shown, a fresh scan or the list being
    reordered. *)
Definition shown_ideas (st : state) : option (list idea) :=
  match moving_idea_index st with
  | None => Some (get_ideas (db st) (current_order st))
  | Some _ => reorder_list st
  end.

(** Lines 256-259. *)
Definition clamp_selection (num_ideas sel : Z) : Z :=
  let sel := if sel >=? num_ideas then num_ideas - 1 else sel in
  if sel <? 0 then 0 else sel.

(** Lines 261-264. *)
Definition adjust_scroll (visible_ideas sel off : Z) : Z :=
  if sel <? off then sel
  else if sel >=? off + visible_ideas then sel - visible_ideas + 1
  else off.

Definition refresh_view (visible_ideas num_ideas : Z) (st : state) : state :=
  let sel := clamp_selection num_ideas (current_selection st) in
  State (db st) (current_order st) sel (moving_idea_index st) (reorder_list st)
        (adjust_scroll visible_ideas sel (scroll_offset st)).

Definition is_None {A} (o : option A) : bool :=
  match o with None => true | Some _ => false end.

(** Lines 317-393: the dispatch on the key.  [ideas] is the list shown;
    while an idea is being moved it is the very object [reorder_list], so
    the in-place swaps are swaps of [ideas]. *)
Definition handle_key (ev : event) (visible_ideas : Z) (ideas : list idea)
    (st : state) : outcome :=
  let num_ideas := len ideas in
  let k := key ev in
  let conn := db st in
  let sel := current_selection st in
  let off := scroll_offset st in
  let idle := is_None (moving_idea_index st) in
  if k =? ord "q" then Break
  else if k =? KEY_RESIZE then Continue st false
  else if k =? KEY_UP then
    match moving_idea_index st with
    | None =>
        Continue (State conn (current_order st) (Z.max 0 (sel - 1)) None
                        (reorder_list st) off) false
    | Some m =>
        if m >? 0 then
          match py_swap ideas m (m - 1) with
          | None => Raised IndexError
          | Some l =>
              Continue (State conn (current_order st) (m - 1) (Some (m - 1))
                              (Some l) off) false
          end
        else Continue st false
    end
  else if k =? KEY_DOWN then
    match moving_idea_index st with
    | None =>
        Continue (State conn (current_order st) (Z.min (num_ideas - 1) (sel + 1))
                        None (reorder_list st) off) false
    | Some m =>
        if m <? num_ideas - 1 then
          match py_swap ideas m (m + 1) with
          | None => Raised IndexError
          | Some l =>
              Continue (State conn (current_order st) (m + 1) (Some (m + 1))
                              (Some l) off) false
          end
        else Continue st false
    end
  else if (k =? ord "o") && idle then
    let new_order :=
      if decide (order_choice ev = str_of "i") then ByPos
      else if decide (order_choice ev = str_of "d") then ByCreatedDate
      else current_order st in
    Continue (State conn new_order 0 (moving_idea_index st) (reorder_list st) 0)
             false
  else if (k =? ord "a") && idle then
    match new_idea_dialog (dialog ev) with
    | Waits => Waiting
    | Raises e => Raised e
    | Returns None => Continue st false
    | Returns (Some (idea_title, idea_notes)) =>
        let conn' := add_idea conn idea_title idea_notes (today ev) in
        let ideas' := get_ideas conn' (current_order st) in
        let sel' := len ideas' - 1 in
        let off' :=
          if sel' >=? off + visible_ideas then sel' - visible_ideas + 1 else off in
        Continue (State conn' (current_order st) sel' (moving_idea_index st)
                        (reorder_list st) off') false
    end
  else if ((k =? KEY_DC) || (k =? KEY_BACKSPACE) || (k =? 127)) && idle then
    if num_ideas >? 0 then
      match py_getitem ideas sel with
      | None => Raised IndexError
      | Some idea =>
          let conn' := delete_idea conn (idea_id idea) in
          let ideas' := get_ideas conn' (current_order st) in
          let sel' :=
            if sel >=? len ideas' then Z.max 0 (len ideas' - 1) else sel in
          Continue (State conn' (current_order st) sel' (moving_idea_index st)
                          (reorder_list st) 0) false
      end
    else Continue st false
  else if (k =? ord "d") && idle then
    if num_ideas >? 0 then
      match py_getitem ideas sel with
      | None => Raised IndexError
      | Some idea =>
          Continue (State (toggle_idea_archived conn (idea_id idea) (archived idea))
                          (current_order st) sel (moving_idea_index st)
                          (reorder_list st) off) false
      end
    else Continue st false
  else if (k =? ord "e") && idle then
    if num_ideas >? 0 then
      match py_getitem ideas sel with
      | None => Raised IndexError
      | Some idea =>
          match edit_idea_dialog (dialog ev) (title idea) (notes idea) with
          | Waits => Waiting
          | Raises e => Raised e
          | Returns None => Continue st false
          | Returns (Some (new_title, new_notes)) =>
              Continue (State (update_idea_info conn (idea_id idea) new_title new_notes)
                              (current_order st) sel (moving_idea_index st)
                              (reorder_list st) off) false
          end
      end
    else Continue st false
  else if k =? ord " " then
    match current_order st with
    | ByCreatedDate => Continue st true
    | ByPos =>
        match moving_idea_index st with
        | None =>
            Continue (State conn ByPos sel (Some sel)
                            (Some (get_ideas conn ByPos)) off) false
        | Some m =>
            Continue (State (update_idea_order conn ideas) ByPos m None None off)
                     false
        end
    end
  else Continue st false.

(** One iteration of [while True]; drawing changes no variable and is left
    out. *)
Definition loop_body (ev : event) (st : state) : outcome :=
  let visible_ideas := visible_of ev in
  if visible_ideas <? 1 then
    if key ev =? ord "q" then Break else Continue st false
  else
    match shown_ideas st with
    | None => Raised TypeError
    | Some ideas =>
        handle_key ev visible_ideas ideas (refresh_view visible_ideas (len ideas) st)
    end.

(** The loop run on the events [evs]: the state reached when every
    iteration goes on to the next one. *)
Fixpoint main_loop (evs : list event) (st : state) : option state :=
  match evs with
  | [] => Some st
  | ev :: evs' =>
      match loop_body ev st with
      | Continue st' _ => main_loop evs' st'
      | _ => None
      end
  end.

(** The same, for iterations that all end with an idea being moved. *)
Fixpoint moving_loop (evs : list event) (st : state) : option state :=
  match evs with
  | [] => Some st
  | ev :: evs' =>
      match loop_body ev st with
      | Continue st' _ =>
          if is_None (moving_idea_index st') then None else moving_loop evs' st'
      | _ => None
      end
  end.

(** ** Vocabulary of the properties *)

(** What the schema and the program's own writes keep true of the table:
    [id] is a primary key, and [archived] holds 0 or 1. *)
Definition unique_ids (c : conn) : Prop := NoDup (ids (ideas_table c)).

Definition flag (a : Z) : Prop := a = 0 ∨ a = 1.

(** [set_pos k] applied along a list with the counter of [enumerate]. *)
Fixpoint renumber (k : Z) (l : list idea) : list idea :=
  match l with
  | [] => []
  | r :: l' => set_pos k r :: renumber (k + 1) l'
  end.

Definition pos_le (a b : idea) : Prop := pos a ≤ pos b.
Definition pos_lt (a b : idea) : Prop := pos a < pos b.

Definition positions (l : list idea) : list Z := map pos l.

(** [l'] is [l] with the cells [i] and [j] exchanged. *)
Definition exchanged (l l' : list idea) (i j : Z) : Prop :=
  ∃ x y, l !! Z.to_nat i = Some y ∧ l !! Z.to_nat j = Some x ∧
         l' = <[Z.to_nat j := y]> (<[Z.to_nat i := x]> l).

(** What one iteration does to the list being reordered: [rl] and [m]
    before, [rl'] and [m'] after. *)
Definition reorder_step (ev : event) (rl : list idea) (m : Z)
    (rl' : list idea) (m' : Z) : Prop :=
  if visible_of ev <? 1 then rl' = rl ∧ m' = m
  else if key ev =? KEY_UP then
    if m >? 0 then exchanged rl rl' m (m - 1) ∧ m' = m - 1
    else rl' = rl ∧ m' = m
  else if key ev =? KEY_DOWN then
    if m <? len rl - 1 then exchanged rl rl' m (m + 1) ∧ m' = m + 1
    else rl' = rl ∧ m' = m
  else rl' = rl ∧ m' = m.

(** [moving_from st0 st]: the loop entered the move of an idea from [st0]
    and has been moving it ever since, up to [st]. *)
Inductive moving_from (st0 : state) : state → Prop :=
  | moving_enter ev st1 fl :
      moving_idea_index st0 = None →
      loop_body ev st0 = Continue st1 fl →
      moving_idea_index st1 ≠ None →
      moving_from st0 st1
  | moving_next ev st1 st2 fl :
      moving_from st0 st1 →
      loop_body ev st1 = Continue st2 fl →
      moving_idea_index st2 ≠ None →
      moving_from st0 st2.

(** The dialog is cancelled: ESC in the title line, ESC in the notes box,
    or [n], [N] or ESC at the confirmation prompt. *)
Definition cancelled (inp : dialog_input) : Prop :=
  get_line_with_esc (dw - 4) [] (title_keys inp) = Returns None
  ∨ (∃ typed, get_line_with_esc (dw - 4) [] (title_keys inp) = Returns (Some typed) ∧
              notes_edit inp = TextboxEsc)
  ∨ (∃ typed gathered,
       get_line_with_esc (dw - 4) [] (title_keys inp) = Returns (Some typed) ∧
       notes_edit inp = TextboxText gathered ∧
       confirm_prompt (confirm_keys inp) = Returns false).

(** The two together: the invariant of the store. *)
Definition store_ok (c : conn) : Prop :=
  unique_ids c ∧ Forall (λ r, flag (archived r)) (ideas_table c).

(** ** Scenarios *)

(** The scenario of the specification: A, B, C at positions 0, 1, 2. *)

Definition idea_A : idea := Idea 1 (str_of "A") 0 (str_of "2024-01-01") [] 0.
Definition idea_B : idea := Idea 2 (str_of "B") 1 (str_of "2024-01-02") [] 0.
Definition idea_C : idea := Idea 3 (str_of "C") 2 (str_of "2024-01-03") [] 0.

Definition db_abc : conn := Conn [idea_A; idea_B; idea_C] 3.

Definition no_dialog : dialog_input := DialogInput [] TextboxEsc [].

(** A key pressed on a terminal of 24 lines. *)
Definition press (k : Z) : event := Event 24 k [] no_dialog (str_of "2024-02-01").

(** B is selected, nothing is being moved. *)
Definition st_abc : state := State db_abc ByPos 1 None None 0.

(** After the space bar and one arrow up: B is moved above A. *)
Definition st_bac : state :=
  State db_abc ByPos 0 (Some 0) (Some [idea_B; idea_A; idea_C]) 0.

Definition st_by_date : state := State db_abc ByCreatedDate 1 None None 0.

(** The scenario of the specification: an idea titled "Old", the title
    line left blank, the notes typed with blanks around. *)
Definition idea_old : idea :=
  Idea 1 (str_of "Old") 0 (str_of "2024-01-01") (str_of "old notes") 0.

Definition st_old : state := State (Conn [idea_old] 1) ByPos 0 None None 0.

Definition edit_blank : event :=
  Event 24 (ord "e") []
        (DialogInput [ord " "; ord "010"] (TextboxText (str_of "  trimmed  "))
                     [ord "y"])
        (str_of "2024-02-01").

(** [e] pressed, a title typed, then ESC in the notes box. *)
Definition edit_then_esc : event :=
  Event 24 (ord "e") []
        (DialogInput [ord "N"; ord "e"; ord "w"; ord "010"] TextboxEsc [])
        (str_of "2024-02-01").

Definition st_empty : state := State init_db ByPos 0 None None 0.

(** ** Drawing *)

(** The indices of the [for] loop that draws the rows (line 266):
    [range(scroll_offset, min(num_ideas, scroll_offset + visible_ideas))]. *)
Definition drawn_range (visible_ideas num_ideas off : Z) : list Z :=
  seqZ off (Z.min num_ideas (off + visible_ideas) - off).

(** The screen row of the idea at index [idx] (line 275); the separator is
    drawn on the row below. *)
Definition row_of (idx off : Z) : Z := (idx - off) * 2.

(** ** More vocabulary *)

(** The three kinds of keys of [get_line_with_esc] besides ESC. *)
Definition enter_key (ch : Z) : Prop := ch = KEY_ENTER ∨ ch = ord "010".

Definition backspace_key (ch : Z) : Prop :=
  ch = KEY_BACKSPACE ∨ ch = 127 ∨ ch = 8.

(** A key that is appended to the line: none of the above, and a code
    point. *)
Definition plain_key (ch : Z) : Prop :=
  ch ≠ ESC ∧ ¬ enter_key ch ∧ ¬ backspace_key ch ∧ 0 ≤ ch < 1114112.

(** A key the confirmation prompt answers to. *)
Definition answer_key (k : Z) : Prop :=
  k = ord "y" ∨ k = ord "Y" ∨ k = ord "n" ∨ k = ord "N" ∨ k = ESC.

(** A string that neither begins nor ends with white space. *)
Definition trimmed (s : pystr) : Prop :=
  (∀ x rest, s = x :: rest → py_isspace x = false) ∧
  (∀ init x, s = init ++ [x] → py_isspace x = false).

(** The positions of the table are distinct. *)
Definition unique_positions (c : conn) : Prop :=
  NoDup (positions (ideas_table c)).

(** No id of the table is above the AUTOINCREMENT counter. *)
Definition ids_bounded (c : conn) : Prop :=
  Forall (λ i, i ≤ sqlite_sequence c) (ids (ideas_table c)).

(** The variables of the loop fit together: when an idea is being moved,
    the order is the position order, [reorder_list] holds the rows of the
    table in some order and [moving_idea_index] is an index of it. *)
Definition coherent (st : state) : Prop :=
  match moving_idea_index st with
  | None => True
  | Some m =>
      current_order st = ByPos ∧
      ∃ rl, reorder_list st = Some rl ∧ rl ≡ₚ ideas_table (db st) ∧
            0 ≤ m ≤ Z.max 0 (len rl - 1)
  end.

(** [add_idea] called once for each (title, notes, date) of a list. *)
Definition add_ideas (c : conn) (items : list (pystr * pystr * pystr)) : conn :=
  fold_left (λ c' '(t, n, d), add_idea c' t n d) items c.

(** The state [main] starts the loop in. *)
Definition initial_state (c : conn) : state := State c ByPos 0 None None 0.


(** What [update_idea_order] may do to a row [r] of the table, [r'] being
    the row after: only [pos] changes, and only for an id of the list, to
    an index of the list counted from [k]. *)
Definition reordered (k : Z) (rl : list idea) (r r' : idea) : Prop :=
  set_pos 0 r' = set_pos 0 r ∧
  (idea_id r ∉ ids rl → r' = r) ∧
  (idea_id r ∈ ids rl → k ≤ pos r' < k + len rl).

(** [store_write c c']: [c'] is [c], or [c] after one of the writes of the
    program, made on a row of the table or, for the order, with a list
    that holds the rows of the table. *)
Inductive store_write (c : conn) : conn → Prop :=
  | write_none : store_write c c
  | write_add t n d : store_write c (add_idea c t n d)
  | write_delete r :
      r ∈ ideas_table c → store_write c (delete_idea c (idea_id r))
  | write_toggle r :
      r ∈ ideas_table c →
      store_write c (toggle_idea_archived c (idea_id r) (archived r))
  | write_info r t n :
      r ∈ ideas_table c → store_write c (update_idea_info c (idea_id r) t n)
  | write_order rl :
      rl ≡ₚ ideas_table c → store_write c (update_idea_order c rl).

(** [a] pressed, "D" typed as the title, "n" as the notes, then [y]. *)
Definition add_D : event :=
  Event 24 (ord "a") []
        (DialogInput [ord "D"; ord "010"] (TextboxText (str_of "n")) [ord "y"])
        (str_of "2024-02-01").

(** A, B, C, then: D added, the selection moved up twice, the selected idea
    deleted. *)
Definition st_acd : state :=
  Eval vm_compute in
    default (initial_state db_abc)
      (main_loop [add_D; press KEY_UP; press KEY_UP; press KEY_DC]
                 (initial_state db_abc)).

(** A, C left after B was deleted, then D added. *)
Definition st_ac_d : state :=
  Eval vm_compute in
    default (initial_state db_abc)
      (main_loop [add_D] (initial_state (delete_idea db_abc 2))).

(** A, B, C with C selected, and with C being moved. *)
Definition st_abc_c : state := State db_abc ByPos 2 None None 0.

Definition st_moving_c : state :=
  State db_abc ByPos 2 (Some 2) (Some [idea_A; idea_B; idea_C]) 0.

(** A, B, C, B selected, after [a] with the dialog of [add_D]. *)
Definition st_abcd : state :=
  Eval vm_compute in default st_abc (main_loop [add_D] st_abc).

(** [e] pressed, "New" typed as the title, "  trimmed  " as the notes,
    then [y]. *)
Definition edit_new : event :=
  Event 24 (ord "e") []
        (DialogInput [ord "N"; ord "e"; ord "w"; ord "010"]
                     (TextboxText (str_of "  trimmed  ")) [ord "y"])
        (str_of "2024-02-01").

(** * Properties of the store *)

Section Sorting.
Variable leb : idea -> idea -> bool.

Lemma insert_row_perm x l : insert_row leb x l ≡ₚ x :: l.
Proof.
  induction l as [|y l IH]; simpl; [done|].
  destruct (leb x y); [done|].
  rewrite IH. apply perm_swap.
Qed.

Lemma order_rows_perm t : order_rows leb t ≡ₚ t.
Proof.
  unfold order_rows.
  induction t as [|x t IH]; simpl; [done|].
  rewrite insert_row_perm. by rewrite IH.
Qed.

Lemma order_rows_length t : length (order_rows leb t) = length t.
Proof. apply Permutation_length, order_rows_perm. Qed.

(** A change of the rows that the comparison does not see commutes with
    the sort. *)
Lemma insert_row_map (f : idea -> idea) x l :
  (∀ a b, leb (f a) (f b) = leb a b) →
  insert_row leb (f x) (map f l) = map f (insert_row leb x l).
Proof.
  intros Hf. induction l as [|y l IH]; simpl; [done|].
  rewrite Hf. destruct (leb x y); simpl; [done|]. by rewrite IH.
Qed.

Lemma order_rows_map (f : idea -> idea) t :
  (∀ a b, leb (f a) (f b) = leb a b) →
  order_rows leb (map f t) = map f (order_rows leb t).
Proof.
  intros Hf. unfold order_rows.
  induction t as [|x t IH]; simpl; [done|].
  rewrite IH. by apply insert_row_map.
Qed.

End Sorting.

Lemma insert_row_pos_sorted x l :
  StronglySorted pos_le l → StronglySorted pos_le (insert_row (row_leb ByPos) x l).
Proof.
  induction 1 as [|y l Hs IH Hy]; simpl.
  - repeat constructor.
  - destruct (pos x <=? pos y) eqn:E.
    + apply Z.leb_le in E. constructor; [by constructor|].
      constructor; [done|].
      eapply Forall_impl; [exact Hy|]. unfold pos_le. intros; lia.
    + apply Z.leb_gt in E. constructor; [done|].
      rewrite insert_row_perm. constructor; [|done]. unfold pos_le. lia.
Qed.

Lemma order_rows_pos_sorted t :
  StronglySorted pos_le (order_rows (row_leb ByPos) t).
Proof.
  unfold order_rows. induction t as [|x t IH]; simpl; [constructor|].
  by apply insert_row_pos_sorted.
Qed.

(** A list sorted on [pos] that is a permutation of a list strictly
    increasing on [pos] is that list. *)
Lemma pos_sorted_unique l2 : ∀ l1,
  l1 ≡ₚ l2 → StronglySorted pos_le l1 → StronglySorted pos_lt l2 → l1 = l2.
Proof.
  induction l2 as [|y l2 IH]; intros l1 Hp H1 H2.
  - by apply Permutation_nil_r in Hp.
  - destruct l1 as [|x l1]; [by apply Permutation_nil_cons in Hp|].
    apply StronglySorted_inv in H1 as [H1 Hx].
    apply StronglySorted_inv in H2 as [H2 Hy].
    assert (x = y) as ->.
    { assert (x ∈ y :: l2) as Hxin by (rewrite <- Hp; left).
      assert (y ∈ x :: l1) as Hyin by (rewrite Hp; left).
      apply elem_of_cons in Hxin as [?|Hxin]; [done|].
      apply elem_of_cons in Hyin as [?|Hyin]; [done|].
      rewrite Forall_forall in Hx, Hy.
      specialize (Hx _ Hyin). specialize (Hy _ Hxin).
      unfold pos_le, pos_lt in *. lia. }
    f_equal. apply IH; [by apply Permutation_cons_inv in Hp|done..].
Qed.

Lemma renumber_ids k l : ids (renumber k l) = ids l.
Proof. revert k. induction l as [|r l IH]; intros k; simpl; [done|]. by rewrite IH. Qed.

Lemma renumber_pos k l : map pos (renumber k l) = seqZ k (len l).
Proof.
  revert k. induction l as [|r l IH]; intros k; [done|].
  unfold len. cbn [length renumber map]. rewrite Nat2Z.inj_succ, seqZ_cons by lia.
  rewrite IH. unfold len. do 2 f_equal. lia.
Qed.

Lemma renumber_pos_ge k l : Forall (λ r, k ≤ pos r) (renumber k l).
Proof.
  revert k. induction l as [|r l IH]; intros k; simpl; constructor; [simpl; lia|].
  eapply Forall_impl; [apply IH|]. simpl. intros; lia.
Qed.

Lemma renumber_sorted k l : StronglySorted pos_lt (renumber k l).
Proof.
  revert k. induction l as [|r l IH]; intros k; simpl; constructor; [done|].
  eapply Forall_impl; [apply (renumber_pos_ge (k + 1))|].
  unfold pos_lt. simpl. intros; lia.
Qed.

Lemma renumber_app k l1 l2 :
  renumber k (l1 ++ l2) = renumber k l1 ++ renumber (k + len l1) l2.
Proof.
  revert k. induction l1 as [|r l1 IH]; intros k; simpl.
  - f_equal. unfold len. simpl. lia.
  - rewrite IH. do 3 f_equal. unfold len. simpl length. lia.
Qed.

Lemma sql_update_fresh f id t : id ∉ ids t → sql_update f id t = t.
Proof.
  unfold sql_update, ids. induction t as [|r t IH]; simpl; [done|].
  rewrite not_elem_of_cons. intros [Hne Hnin].
  rewrite IH by done. destruct (Z.eqb_spec (idea_id r) id); congruence.
Qed.

Lemma sql_update_app f id t1 t2 :
  sql_update f id (t1 ++ t2) = sql_update f id t1 ++ sql_update f id t2.
Proof. apply map_app. Qed.

Lemma sql_update_ids f id t :
  (∀ r, idea_id (f r) = idea_id r) → ids (sql_update f id t) = ids t.
Proof.
  intros Hf. unfold sql_update, ids. rewrite map_map. apply map_ext.
  intros r. destruct (idea_id r =? id); [apply Hf|done].
Qed.

(** The loop of [update_idea_order] on a list of rows with distinct ids
    that holds every row of the table: each row gets its index. *)
Lemma update_rows_from_perm rl : ∀ k t pre,
  NoDup (ids (pre ++ rl)) → t ≡ₚ pre ++ rl →
  update_rows_from k rl t ≡ₚ pre ++ renumber k rl.
Proof.
  induction rl as [|x rl IH]; intros k t pre Hnd Hp; simpl; [done|].
  unfold ids in Hnd. rewrite map_app in Hnd. simpl in Hnd.
  apply NoDup_app in Hnd as (Hd & Hdis & Hrl).
  apply NoDup_cons in Hrl as [Hx Hrl].
  rewrite (IH (k + 1) _ (pre ++ [set_pos k x])).
  - by rewrite <- app_assoc.
  - unfold ids. rewrite !map_app. simpl.
    apply NoDup_app. split_and!; [| |done].
    2:{ intros y Hy Hy'. apply elem_of_app in Hy as [Hy|Hy].
        - apply (Hdis _ Hy). by right.
        - apply list_elem_of_singleton in Hy as ->. by apply Hx. }
    apply NoDup_app. split_and!; [done| |apply NoDup_singleton].
    intros y Hy. rewrite list_elem_of_singleton. intros ->.
    apply (Hdis _ Hy). left.
  - rewrite <- app_assoc. simpl.
    etrans; [apply Permutation_map, Hp|].
    fold (sql_update (set_pos k) (idea_id x) (pre ++ x :: rl)).
    rewrite sql_update_app. simpl. rewrite Z.eqb_refl.
    rewrite !sql_update_fresh; [done|done|].
    intros Hin. apply (Hdis _ Hin). left.
Qed.

(** After [update_idea_order], the scan by position is the given list with
    [pos] set to the index. *)
Lemma scan_after_update_idea_order c rl :
  unique_ids c → rl ≡ₚ ideas_table c →
  get_ideas (update_idea_order c rl) ByPos = renumber 0 rl.
Proof.
  intros Hnd Hp. unfold get_ideas, update_idea_order. simpl.
  apply pos_sorted_unique.
  - rewrite order_rows_perm.
    apply (update_rows_from_perm rl 0 _ []); simpl; [|done].
    unfold unique_ids, ids in *. by rewrite Hp.
  - apply order_rows_pos_sorted.
  - apply renumber_sorted.
Qed.

(** * Properties of the list operations *)

Lemma insert_head_perm {A} (l : list A) : ∀ j a x,
  l !! j = Some x → x :: <[j := a]> l ≡ₚ a :: l.
Proof.
  induction l as [|y l IH]; intros [|j] a x Hj; simplify_eq/=.
  - apply perm_swap.
  - rewrite perm_swap. rewrite (IH j a x Hj). apply perm_swap.
Qed.

(** Exchanging two cells of a list permutes it. *)
Lemma exchange_perm {A} (l : list A) : ∀ i j x y,
  l !! i = Some y → l !! j = Some x → <[j := y]> (<[i := x]> l) ≡ₚ l.
Proof.
  induction l as [|z l IH]; intros [|i] [|j] x y Hi Hj; simplify_eq/=.
  - done.
  - by apply insert_head_perm.
  - by apply insert_head_perm.
  - by rewrite (IH i j x y).
Qed.

Lemma py_index_in_range {A} (l : list A) (i : Z) :
  0 ≤ i < len l → py_index l i = Some (Z.to_nat i).
Proof.
  intros Hi. unfold py_index.
  destruct (Z.ltb_spec i 0); [lia|].
  destruct (Z.leb_spec 0 i); [|lia].
  destruct (Z.ltb_spec i (len l)); [done|lia].
Qed.

Lemma py_getitem_in_range {A} (l : list A) (i : Z) :
  0 ≤ i < len l → ∃ x, py_getitem l i = Some x ∧ l !! Z.to_nat i = Some x.
Proof.
  intros Hi. unfold py_getitem. rewrite py_index_in_range by done. simpl.
  destruct (l !! Z.to_nat i) as [x|] eqn:E; [by exists x|].
  apply lookup_ge_None in E. unfold len in Hi. lia.
Qed.

(** [l[i], l[j] = l[j], l[i]] with both indices in range exchanges the two
    cells. *)
Lemma py_swap_in_range {A} (l : list A) (i j : Z) :
  0 ≤ i < len l → 0 ≤ j < len l →
  ∃ x y, l !! Z.to_nat i = Some y ∧ l !! Z.to_nat j = Some x ∧
         py_swap l i j = Some (<[Z.to_nat j := y]> (<[Z.to_nat i := x]> l)).
Proof.
  intros Hi Hj.
  destruct (py_getitem_in_range l i Hi) as (y & Gy & Ly).
  destruct (py_getitem_in_range l j Hj) as (x & Gx & Lx).
  exists x, y. split_and!; [done..|].
  unfold py_swap. rewrite Gx, Gy. simpl.
  unfold py_setitem. rewrite py_index_in_range by done. simpl.
  rewrite py_index_in_range; [done|].
  unfold len in *. by rewrite length_insert.
Qed.

(** * Properties of the loop *)

Lemma exchanged_perm l l' i j : exchanged l l' i j → l' ≡ₚ l.
Proof. intros (x & y & Hi & Hj & ->). by apply exchange_perm. Qed.

(** With an idea being moved, only five keys are looked at. *)
Lemma handle_key_moving ev vis ideas st m :
  moving_idea_index st = Some m →
  handle_key ev vis ideas st =
    if key ev =? ord "q" then Break
    else if key ev =? KEY_RESIZE then Continue st false
    else if key ev =? KEY_UP then
      if m >? 0 then
        match py_swap ideas m (m - 1) with
        | None => Raised IndexError
        | Some l =>
            Continue (State (db st) (current_order st) (m - 1) (Some (m - 1))
                            (Some l) (scroll_offset st)) false
        end
      else Continue st false
    else if key ev =? KEY_DOWN then
      if m <? len ideas - 1 then
        match py_swap ideas m (m + 1) with
        | None => Raised IndexError
        | Some l =>
            Continue (State (db st) (current_order st) (m + 1) (Some (m + 1))
                            (Some l) (scroll_offset st)) false
        end
      else Continue st false
    else if key ev =? ord " " then
      match current_order st with
      | ByCreatedDate => Continue st true
      | ByPos =>
          Continue (State (update_idea_order (db st) ideas) ByPos m None None
                          (scroll_offset st)) false
      end
    else Continue st false.
Proof.
  intros Hm. unfold handle_key. rewrite Hm. cbn [is_None].
  rewrite !andb_false_r. reflexivity.
Qed.

Lemma clamp_selection_range n s :
  0 ≤ n → 0 ≤ clamp_selection n s ≤ Z.max 0 (n - 1).
Proof.
  intros Hn. unfold clamp_selection.
  destruct (Z.geb_spec s n), (Z.ltb_spec (n - 1) 0), (Z.ltb_spec s 0); lia.
Qed.

Lemma len_nonneg {A} (l : list A) : 0 ≤ len l.
Proof. unfold len. lia. Qed.

Lemma exchanged_len l l' i j : exchanged l l' i j → len l' = len l.
Proof. intros (x & y & _ & _ & ->). unfold len. by rewrite !length_insert. Qed.

Lemma reorder_step_perm ev rl m rl' m' :
  reorder_step ev rl m rl' m' → rl' ≡ₚ rl ∧ len rl' = len rl.
Proof.
  unfold reorder_step. repeat case_match; intros [Hex ?]; subst; try done.
  all: split; [by eapply exchanged_perm | by eapply exchanged_len].
Qed.

(** One iteration with an idea being moved, in the position order and with
    the index inside the list: the loop goes on moving, or the key is the
    space bar and the order is written, or the key is [q]. *)
Lemma moving_step ev st m rl :
  current_order st = ByPos →
  moving_idea_index st = Some m → reorder_list st = Some rl →
  0 ≤ m ≤ Z.max 0 (len rl - 1) →
  match loop_body ev st with
  | Break => key ev = ord "q"
  | Raised _ | Waiting => False
  | Continue st' fl =>
      fl = false ∧ current_order st' = ByPos ∧
      ((db st' = db st ∧
        ∃ m' rl', moving_idea_index st' = Some m' ∧ reorder_list st' = Some rl' ∧
                  0 ≤ m' ≤ Z.max 0 (len rl' - 1) ∧ reorder_step ev rl m rl' m')
       ∨ (1 ≤ visible_of ev ∧ key ev = ord " " ∧
          db st' = update_idea_order (db st) rl ∧
          moving_idea_index st' = None ∧ reorder_list st' = None ∧
          current_selection st' = m))
  end.
Proof.
  intros Ho Hm Hrl Hrange. unfold loop_body, reorder_step.
  destruct (Z.ltb_spec (visible_of ev) 1) as [Hv|Hv].
  { destruct (Z.eqb_spec (key ev) (ord "q")); [done|].
    split_and!; [done..|]. left. split; [done|]. by exists m, rl. }
  unfold shown_ideas. rewrite Hm, Hrl.
  rewrite (handle_key_moving _ _ _ _ m) by done.
  cbn [refresh_view db current_order scroll_offset].
  destruct (Z.eqb_spec (key ev) (ord "q")); [done|].
  destruct (Z.eqb_spec (key ev) KEY_RESIZE) as [Hk|_].
  { rewrite Hk. cbn. split_and!; [done..|]. left. split; [done|].
    by exists m, rl. }
  destruct (Z.eqb_spec (key ev) KEY_UP) as [Hk|_].
  { destruct (Z.gtb_spec m 0) as [Hm0|Hm0]; cbn.
    - destruct (py_swap_in_range rl m (m - 1)) as (x & y & Hy & Hx & ->); [lia..|].
      split_and!; [done..|]. left. split; [done|]. eexists _, _.
      split_and!; [done|done|lia| | |done].
      + unfold len. rewrite !length_insert. fold (len rl). lia.
      + by exists x, y.
    - split_and!; [done..|]. left. split; [done|]. by exists m, rl. }
  destruct (Z.eqb_spec (key ev) KEY_DOWN) as [Hk|_].
  { destruct (Z.ltb_spec m (len rl - 1)) as [Hm0|Hm0]; cbn.
    - destruct (py_swap_in_range rl m (m + 1)) as (x & y & Hy & Hx & ->); [lia..|].
      split_and!; [done..|]. left. split; [done|]. eexists _, _.
      split_and!; [done|done|lia| | |done].
      + unfold len. rewrite !length_insert. fold (len rl). lia.
      + by exists x, y.
    - split_and!; [done..|]. left. split; [done|]. by exists m, rl. }
  destruct (Z.eqb_spec (key ev) (ord " ")) as [Hk|_].
  { rewrite Ho. cbn. split_and!; [done..|]. right. by split_and!; [lia|..]. }
  cbn. split_and!; [done..|]. left. split; [done|]. by exists m, rl.
Qed.

(** The space bar in the position order with no idea being moved: the
    scan is frozen in [reorder_list] and the selected idea is the one
    moved. *)
Lemma enter_move_mode ev st :
  moving_idea_index st = None → current_order st = ByPos →
  key ev = ord " " → 1 ≤ visible_of ev →
  let scan := get_ideas (db st) ByPos in
  let sel := clamp_selection (len scan) (current_selection st) in
  loop_body ev st =
    Continue (State (db st) ByPos sel (Some sel) (Some scan)
                    (adjust_scroll (visible_of ev) sel (scroll_offset st))) false.
Proof.
  intros Hm Ho Hk Hv. unfold loop_body.
  destruct (Z.ltb_spec (visible_of ev) 1); [lia|].
  unfold shown_ideas. rewrite Hm, Ho.
  unfold handle_key. rewrite Hk. cbn. by rewrite Hm, Ho.
Qed.

(** No other iteration starts a move. *)
Lemma idle_step_moving ev st st1 fl :
  moving_idea_index st = None →
  loop_body ev st = Continue st1 fl → moving_idea_index st1 ≠ None →
  current_order st = ByPos ∧ key ev = ord " " ∧ 1 ≤ visible_of ev.
Proof.
  intros Hm Hstep Hmv. unfold loop_body in Hstep.
  destruct (Z.ltb_spec (visible_of ev) 1).
  { destruct (key ev =? ord "q"); simplify_eq. }
  unfold shown_ideas in Hstep. rewrite Hm in Hstep.
  unfold handle_key in Hstep.
  cbn [refresh_view db current_order moving_idea_index reorder_list
       scroll_offset current_selection] in Hstep.
  rewrite Hm in Hstep. cbn [is_None] in Hstep. rewrite !andb_true_r in Hstep.
  repeat (case_match; simplify_eq/=; try done).
  split_and!; [done| |done]. by apply Z.eqb_eq.
Qed.

(** The invariant of a move: the store is not written, and the list being
    reordered is a permutation of the scan taken at the start. *)
Lemma moving_from_inv st0 st :
  moving_from st0 st →
  db st = db st0 ∧ current_order st = ByPos ∧
  ∃ m rl, moving_idea_index st = Some m ∧ reorder_list st = Some rl ∧
          rl ≡ₚ get_ideas (db st0) ByPos ∧ 0 ≤ m ≤ Z.max 0 (len rl - 1).
Proof.
  induction 1 as [ev st1 fl Hm Hstep Hmv|ev st1 st2 fl _ IH Hstep Hmv].
  - destruct (idle_step_moving _ _ _ _ Hm Hstep Hmv) as (Ho & Hk & Hv).
    rewrite enter_move_mode in Hstep by done. simplify_eq/=.
    split_and!; [done..|]. eexists _, _. split_and!; [done..| |].
    all: apply clamp_selection_range, len_nonneg.
  - destruct IH as (Hdb & Ho & m & rl & Hm & Hrl & Hp & Hrange).
    pose proof (moving_step ev st1 m rl Ho Hm Hrl Hrange) as Hs.
    rewrite Hstep in Hs.
    destruct Hs as (_ & Ho2 & [(Hdb2 & m' & rl' & Hm' & Hrl' & Hrange' & Hrs)|Hc]).
    + split_and!; [congruence|done|]. exists m', rl'.
      apply reorder_step_perm in Hrs as [Hp' _].
      split_and!; [done|done|by rewrite Hp'|lia..].
    + destruct Hc as (_ & _ & _ & Hnone & _). congruence.
Qed.

(** The space bar with an idea being moved: the order of [reorder_list] is
    written to the store and the move ends. *)
Lemma confirm_move ev st m rl :
  current_order st = ByPos →
  moving_idea_index st = Some m → reorder_list st = Some rl →
  key ev = ord " " → 1 ≤ visible_of ev →
  loop_body ev st =
    Continue (State (update_idea_order (db st) rl) ByPos m None None
                    (adjust_scroll (visible_of ev)
                       (clamp_selection (len rl) (current_selection st))
                       (scroll_offset st))) false.
Proof.
  intros Ho Hm Hrl Hk Hv. unfold loop_body.
  destruct (Z.ltb_spec (visible_of ev) 1); [lia|].
  unfold shown_ideas. rewrite Hm, Hrl.
  rewrite (handle_key_moving _ _ _ _ m) by done.
  rewrite Hk. cbn. by rewrite Ho.
Qed.

(** A key that is neither an arrow, nor [q], nor the space bar leaves a
    move as it is. *)
Lemma moving_other_key ev st m rl :
  current_order st = ByPos →
  moving_idea_index st = Some m → reorder_list st = Some rl →
  0 ≤ m ≤ Z.max 0 (len rl - 1) →
  key ev ≠ KEY_UP → key ev ≠ KEY_DOWN → key ev ≠ ord "q" → key ev ≠ ord " " →
  ∃ st', loop_body ev st = Continue st' false ∧
         db st' = db st ∧ current_order st' = ByPos ∧
         moving_idea_index st' = Some m ∧ reorder_list st' = Some rl.
Proof.
  intros Ho Hm Hrl Hrange Hu Hd Hq Hs.
  pose proof (moving_step ev st m rl Ho Hm Hrl Hrange) as Hstep.
  destruct (loop_body ev st) as [st' fl| | |]; [|done..].
  destruct Hstep as (-> & Ho' & [(Hdb & m' & rl' & Hm' & Hrl' & _ & Hrs)|Hc]).
  - exists st'. unfold reorder_step in Hrs.
    destruct (Z.eqb_spec (key ev) KEY_UP); [done|].
    destruct (Z.eqb_spec (key ev) KEY_DOWN); [done|].
    assert (rl' = rl ∧ m' = m) as [-> ->] by (by destruct (visible_of ev <? 1)).
    done.
  - by destruct Hc as (_ & ? & _).
Qed.

Lemma unique_ids_abc : unique_ids db_abc.
Proof. apply (bool_decide_unpack _). exact I. Defined.

Lemma moving_abc_bac : moving_from st_abc st_bac.
Proof.
  eapply (moving_next _ (press KEY_UP)
            (State db_abc ByPos 1 (Some 1) (Some [idea_A; idea_B; idea_C]) 0)).
  - by eapply (moving_enter _ (press (ord " "))).
  - reflexivity.
  - done.
Defined.

(** * The move of an idea *)

(** C1: a move that ends with the confirming space bar writes the store so
    that the scan by position is the list [reorder_list] of that moment,
    in that order, with the positions 0, 1, ..., N-1. *)
Theorem committed_order_is_snapshot st0 st ev rl :
  unique_ids (db st0) →
  moving_from st0 st →
  reorder_list st = Some rl →
  key ev = ord " " → 1 ≤ visible_of ev →
  ∃ st' m,
    loop_body ev st = Continue st' false ∧
    moving_idea_index st = Some m ∧
    moving_idea_index st' = None ∧ reorder_list st' = None ∧
    current_selection st' = m ∧
    db st' = update_idea_order (db st0) rl ∧
    get_ideas (db st') ByPos = renumber 0 rl ∧
    ids (get_ideas (db st') ByPos) = ids rl ∧
    positions (get_ideas (db st') ByPos) = seqZ 0 (len rl).
Proof.
  intros Hnd Hmv Hrl Hk Hv.
  destruct (moving_from_inv _ _ Hmv) as (Hdb & Ho & m & rl' & Hm & Hrl' & Hp & _).
  assert (rl' = rl) as -> by congruence.
  eexists _, m. split; [by apply confirm_move|].
  cbn [db moving_idea_index reorder_list current_selection]. rewrite Hdb.
  assert (get_ideas (update_idea_order (db st0) rl) ByPos = renumber 0 rl) as E.
  { apply scan_after_update_idea_order; [done|].
    rewrite Hp. apply order_rows_perm. }
  rewrite E. split_and!; try done.
  - apply renumber_ids.
  - apply renumber_pos.
Qed.

Lemma committed_order_is_snapshot_witness :
  ∃ st' m,
    loop_body (press (ord " ")) st_bac = Continue st' false ∧
    moving_idea_index st_bac = Some m ∧
    moving_idea_index st' = None ∧ reorder_list st' = None ∧
    current_selection st' = m ∧
    db st' = update_idea_order (db st_abc) [idea_B; idea_A; idea_C] ∧
    get_ideas (db st') ByPos = renumber 0 [idea_B; idea_A; idea_C] ∧
    ids (get_ideas (db st') ByPos) = ids [idea_B; idea_A; idea_C] ∧
    positions (get_ideas (db st') ByPos) = seqZ 0 (len [idea_B; idea_A; idea_C]).
Proof.
  apply (committed_order_is_snapshot st_abc st_bac (press (ord " "))
           [idea_B; idea_A; idea_C]).
  - exact unique_ids_abc.
  - exact moving_abc_bac.
  - reflexivity.
  - reflexivity.
  - vm_compute. discriminate.
Defined.

(** C3: the space bar pressed twice in the position order, with no arrow
    key in between, leaves the order of the ids in the scan by position as
    it was. *)
Theorem enter_confirm_keeps_order st enter mid confirm :
  unique_ids (db st) →
  moving_idea_index st = None → current_order st = ByPos →
  key enter = ord " " → 1 ≤ visible_of enter →
  Forall (λ ev, key ev ≠ KEY_UP ∧ key ev ≠ KEY_DOWN ∧
                key ev ≠ ord "q" ∧ key ev ≠ ord " ") mid →
  key confirm = ord " " → 1 ≤ visible_of confirm →
  ∃ st',
    main_loop (enter :: mid ++ [confirm]) st = Some st' ∧
    moving_idea_index st' = None ∧
    db st' = update_idea_order (db st) (get_ideas (db st) ByPos) ∧
    ids (get_ideas (db st') ByPos) = ids (get_ideas (db st) ByPos).
Proof.
  intros Hnd Hm Ho Hke Hve Hmid Hkc Hvc.
  cbn [main_loop]. rewrite enter_move_mode by done.
  set (scan := get_ideas (db st) ByPos).
  set (sel := clamp_selection (len scan) (current_selection st)).
  set (off := adjust_scroll (visible_of enter) sel (scroll_offset st)).
  assert (0 ≤ sel ≤ Z.max 0 (len scan - 1)) as Hrange
    by apply clamp_selection_range, len_nonneg.
  assert (∀ st1, db st1 = db st → current_order st1 = ByPos →
            moving_idea_index st1 = Some sel → reorder_list st1 = Some scan →
            ∃ st', main_loop (mid ++ [confirm]) st1 = Some st' ∧
                   moving_idea_index st' = None ∧
                   db st' = update_idea_order (db st) scan) as Hloop.
  { clear off. induction Hmid as [|ev mid Hev _ IH]; intros st1 Hdb1 Ho1 Hm1 Hrl1.
    - cbn [app main_loop]. rewrite (confirm_move _ _ sel scan) by done.
      eexists. split; [done|]. cbn. by rewrite Hdb1.
    - destruct Hev as (Hu & Hd & Hq & Hs).
      destruct (moving_other_key ev st1 sel scan) as (st2 & Hstep & ? & ? & ? & ?);
        [done..|].
      cbn [app main_loop]. rewrite Hstep. apply IH; congruence. }
  destruct (Hloop (State (db st) ByPos sel (Some sel) (Some scan) off))
    as (st' & Hrun & Hm' & Hdb'); [done..|].
  exists st'. split_and!; [done..|].
  rewrite Hdb'. rewrite scan_after_update_idea_order; [apply renumber_ids|done|].
  apply order_rows_perm.
Qed.

Lemma enter_confirm_keeps_order_witness :
  ∃ st',
    main_loop (press (ord " ") :: [press KEY_RESIZE] ++ [press (ord " ")]) st_abc
      = Some st' ∧
    moving_idea_index st' = None ∧
    db st' = update_idea_order (db st_abc) (get_ideas (db st_abc) ByPos) ∧
    ids (get_ideas (db st') ByPos) = ids (get_ideas (db st_abc) ByPos).
Proof.
  apply (enter_confirm_keeps_order st_abc (press (ord " ")) [press KEY_RESIZE]
           (press (ord " "))).
  - exact unique_ids_abc.
  - reflexivity.
  - reflexivity.
  - reflexivity.
  - vm_compute. discriminate.
  - repeat constructor; vm_compute; discriminate.
  - reflexivity.
  - vm_compute. discriminate.
Defined.

(** C9: while an idea is moved, an arrow key exchanges two neighbouring
    cells of [reorder_list] or, at either end, does nothing; so the list
    is a permutation of the scan taken when the move began, the store is
    not written before the space bar, and the space bar writes the order
    of that list. *)
Theorem move_keeps_records st0 st ev :
  moving_from st0 st →
  ∃ m rl,
    moving_idea_index st = Some m ∧ reorder_list st = Some rl ∧
    db st = db st0 ∧ rl ≡ₚ get_ideas (db st0) ByPos ∧
    match loop_body ev st with
    | Continue st' _ =>
        (db st' = db st0 ∧
         ∃ m' rl', moving_idea_index st' = Some m' ∧ reorder_list st' = Some rl' ∧
                   reorder_step ev rl m rl' m' ∧ rl' ≡ₚ rl)
        ∨ (key ev = ord " " ∧ moving_idea_index st' = None ∧
           db st' = update_idea_order (db st0) rl)
    | Break => key ev = ord "q"
    | Raised _ | Waiting => False
    end.
Proof.
  intros Hmv.
  destruct (moving_from_inv _ _ Hmv) as (Hdb & Ho & m & rl & Hm & Hrl & Hp & Hrange).
  exists m, rl. split_and!; [done..|].
  pose proof (moving_step ev st m rl Ho Hm Hrl Hrange) as Hstep.
  destruct (loop_body ev st) as [st' fl| | |]; [|done..].
  destruct Hstep as (_ & _ & [(Hdb' & m' & rl' & Hm' & Hrl' & _ & Hrs)|Hc]).
  - left. split; [congruence|]. exists m', rl'. split_and!; [done..|].
    by apply reorder_step_perm in Hrs as [? _].
  - right. destruct Hc as (_ & ? & Hdb' & ? & _). split_and!; [done..|].
    by rewrite Hdb', Hdb.
Qed.

Lemma move_keeps_records_witness :
  ∃ m rl,
    moving_idea_index st_bac = Some m ∧ reorder_list st_bac = Some rl ∧
    db st_bac = db st_abc ∧ rl ≡ₚ get_ideas (db st_abc) ByPos ∧
    match loop_body (press KEY_DOWN) st_bac with
    | Continue st' _ =>
        (db st' = db st_abc ∧
         ∃ m' rl', moving_idea_index st' = Some m' ∧ reorder_list st' = Some rl' ∧
                   reorder_step (press KEY_DOWN) rl m rl' m' ∧ rl' ≡ₚ rl)
        ∨ (key (press KEY_DOWN) = ord " " ∧ moving_idea_index st' = None ∧
           db st' = update_idea_order (db st_abc) rl)
    | Break => key (press KEY_DOWN) = ord "q"
    | Raised _ | Waiting => False
    end.
Proof.
  apply (move_keeps_records st_abc st_bac (press KEY_DOWN)).
  exact moving_abc_bac.
Defined.

(** * The store operations *)

Lemma select_max_pos_spec t :
  match select_max_pos t with
  | None => t = []
  | Some m => (m ∈ positions t ∧ Forall (λ p, p ≤ m) (positions t))
  end.
Proof.
  induction t as [|r t IH]; simpl; [done|].
  destruct (select_max_pos t) as [m|].
  - destruct IH as [Hin Hall]. split.
    + destruct (Z.max_spec (pos r) m) as [[_ ->]|[_ ->]]; [by right|by left].
    + constructor; [simpl; lia|]. eapply Forall_impl; [exact Hall|]. simpl. lia.
  - subst t. split; [by left|]. by repeat constructor.
Qed.

Lemma foldr_max_bound (t : list Z) (s : Z) :
  s ≤ foldr Z.max s t ∧ Forall (λ i, i ≤ foldr Z.max s t) t.
Proof.
  induction t as [|i t [IHs IH]]; simpl; [by split|].
  split; [lia|]. constructor; [lia|].
  eapply Forall_impl; [exact IH|]. simpl. lia.
Qed.

(** The rowid of an inserted row is new. *)
Lemma next_rowid_fresh c : next_rowid c ∉ ids (ideas_table c).
Proof.
  unfold next_rowid. intros Hin.
  destruct (foldr_max_bound (ids (ideas_table c)) (sqlite_sequence c)) as [_ Hmax].
  rewrite Forall_forall in Hmax. specialize (Hmax _ Hin). simpl in Hmax. lia.
Qed.

(** C2: [add_idea] appends one row whose position is the largest position
    of the table plus one, or 0 for an empty table, whose date is today's
    and whose [archived] is 0; the title and notes are the ones given and
    no other row changes. *)
Theorem add_idea_appends c new_title new_notes date :
  ∃ new,
    ideas_table (add_idea c new_title new_notes date) = ideas_table c ++ [new] ∧
    title new = new_title ∧ notes new = new_notes ∧
    created_date new = date ∧ archived new = 0 ∧ py_bool (archived new) = false ∧
    (idea_id new ∉ ids (ideas_table c)) ∧
    ((ideas_table c = [] ∧ pos new = 0) ∨
     (∃ m, m ∈ positions (ideas_table c) ∧
           Forall (λ p, p ≤ m) (positions (ideas_table c)) ∧
           pos new = m + 1)).
Proof.
  unfold add_idea. eexists.
  cbn [ideas_table title notes created_date archived idea_id pos].
  split_and!; try done.
  - apply next_rowid_fresh.
  - pose proof (select_max_pos_spec (ideas_table c)) as Hmax.
    destruct (select_max_pos (ideas_table c)) as [m|]; [right|left; done].
    exists m. by destruct Hmax.
Qed.

Lemma find_idea_unique c r :
  unique_ids c → r ∈ ideas_table c → find_idea c (idea_id r) = Some r.
Proof.
  unfold unique_ids, find_idea, ids.
  induction (ideas_table c) as [|x t IH]; simpl; intros Hnd Hin.
  - by apply elem_of_nil in Hin.
  - apply NoDup_cons in Hnd as [Hx Hnd].
    destruct (Z.eqb_spec (idea_id x) (idea_id r)) as [E|E].
    + apply elem_of_cons in Hin as [->|Hin]; [done|].
      destruct Hx. rewrite E. apply list_elem_of_In, in_map, list_elem_of_In, Hin.
    + apply elem_of_cons in Hin as [->|Hin]; [done|]. by apply IH.
Qed.

Lemma find_idea_in c id r : find_idea c id = Some r → r ∈ ideas_table c ∧ idea_id r = id.
Proof.
  unfold find_idea. intros H. apply find_some in H as [Hin E].
  split; [by apply list_elem_of_In|by apply Z.eqb_eq].
Qed.

Lemma filter_ne_fresh id t :
  id ∉ ids t → filter (λ r, idea_id r ≠ id) t = t.
Proof.
  induction t as [|x t IH]; simpl; [done|].
  rewrite not_elem_of_cons. intros [Hne Hnin].
  rewrite filter_cons_True by done. by rewrite IH.
Qed.

Lemma find_after_delete_same t id :
  List.find (λ r, idea_id r =? id) (filter (λ r, idea_id r ≠ id) t) = None.
Proof.
  induction t as [|x t IH]; [done|].
  rewrite filter_cons. destruct (decide (idea_id x ≠ id)) as [E|E]; [|done].
  simpl. by destruct (Z.eqb_spec (idea_id x) id).
Qed.

Lemma find_after_delete_other t id id' :
  id' ≠ id →
  List.find (λ r, idea_id r =? id') (filter (λ r, idea_id r ≠ id) t)
  = List.find (λ r, idea_id r =? id') t.
Proof.
  intros Hne. induction t as [|x t IH]; [done|].
  rewrite filter_cons. destruct (decide (idea_id x ≠ id)) as [E|E]; simpl.
  - by rewrite IH.
  - apply dec_stable in E. rewrite IH.
    destruct (Z.eqb_spec (idea_id x) id'); [congruence|done].
Qed.

Lemma delete_split t id :
  NoDup (ids t) → id ∈ ids t →
  ∃ r t1 t2, t = t1 ++ r :: t2 ∧ idea_id r = id ∧
             filter (λ r, idea_id r ≠ id) t = t1 ++ t2.
Proof.
  intros Hnd Hin.
  apply list_elem_of_In, in_map_iff in Hin as (r & Hr & Hin).
  apply list_elem_of_In, list_elem_of_split in Hin as (t1 & t2 & ->).
  exists r, t1, t2. split_and!; [done..|].
  unfold ids in Hnd. rewrite map_app in Hnd. simpl in Hnd.
  apply NoDup_app in Hnd as (_ & Hdis & Hnd).
  apply NoDup_cons in Hnd as [Hr2 _]. subst id.
  rewrite filter_app, filter_cons_False by (intros ?; congruence).
  rewrite !filter_ne_fresh; [done..|].
  intros Hin1. apply (Hdis _ Hin1). left.
Qed.

(** C5: deleting the id of a row of the table takes that one row out; the
    other rows stay as they are, positions included, in the same order, so
    every other id is found with the row it had. *)
Theorem delete_idea_removes_one c id :
  unique_ids c → id ∈ ids (ideas_table c) →
  (∃ r t1 t2,
      ideas_table c = t1 ++ r :: t2 ∧ idea_id r = id ∧
      ideas_table (delete_idea c id) = t1 ++ t2) ∧
  find_idea (delete_idea c id) id = None ∧
  (∀ id', id' ≠ id → find_idea (delete_idea c id) id' = find_idea c id') ∧
  (∀ r, r ∈ ideas_table c → idea_id r ≠ id →
        r ∈ ideas_table (delete_idea c id)) ∧
  unique_ids (delete_idea c id).
Proof.
  intros Hnd Hin. unfold unique_ids, find_idea, delete_idea in *.
  cbn [ideas_table]. split_and!.
  - by apply delete_split.
  - apply find_after_delete_same.
  - intros id' Hne. by apply find_after_delete_other.
  - intros r Hr Hne. by apply list_elem_of_filter.
  - destruct (delete_split _ _ Hnd Hin) as (r & t1 & t2 & Ht & _ & ->).
    rewrite Ht in Hnd. unfold ids in *. rewrite map_app in *. simpl in Hnd.
    apply NoDup_app in Hnd as (H1 & Hdis & H2).
    apply NoDup_cons in H2 as [_ H2].
    apply NoDup_app. split_and!; [done| |done].
    intros x Hx Hx2. apply (Hdis _ Hx). by right.
Qed.

Lemma delete_idea_removes_one_witness :
  (∃ r t1 t2,
      ideas_table db_abc = t1 ++ r :: t2 ∧ idea_id r = 2 ∧
      ideas_table (delete_idea db_abc 2) = t1 ++ t2) ∧
  find_idea (delete_idea db_abc 2) 2 = None ∧
  (∀ id', id' ≠ 2 → find_idea (delete_idea db_abc 2) id' = find_idea db_abc id') ∧
  (∀ r, r ∈ ideas_table db_abc → idea_id r ≠ 2 →
        r ∈ ideas_table (delete_idea db_abc 2)) ∧
  unique_ids (delete_idea db_abc 2).
Proof.
  apply (delete_idea_removes_one db_abc 2).
  - exact unique_ids_abc.
  - apply (bool_decide_unpack _). exact I.
Defined.

(** The comparisons of [ORDER BY] read [pos] or [created_date] only. *)
Lemma row_leb_set_archived o (g : idea → Z) a b :
  row_leb o (set_archived (g a) a) (set_archived (g b) b) = row_leb o a b.
Proof. by destruct o. Qed.

Lemma sql_update_set_archived a id t :
  sql_update (set_archived a) id t
  = map (λ r, set_archived (if idea_id r =? id then a else archived r) r) t.
Proof.
  unfold sql_update. apply map_ext. intros r.
  destruct (idea_id r =? id); [done|]. by destruct r.
Qed.

(** Whatever is written to the [archived] column, a scan gives the rows in
    the order it gave before. *)
Lemma get_ideas_set_archived (g : idea → Z) c o :
  get_ideas (Conn (map (λ r, set_archived (g r) r) (ideas_table c))
                  (sqlite_sequence c)) o
  = map (λ r, set_archived (g r) r) (get_ideas c o).
Proof.
  unfold get_ideas. cbn [ideas_table]. apply order_rows_map.
  intros a b. apply row_leb_set_archived.
Qed.

Lemma map_set_archived_ids (g : idea → Z) t :
  ids (map (λ r, set_archived (g r) r) t) = ids t.
Proof. unfold ids. rewrite map_map. by apply map_ext. Qed.

Lemma map_set_archived_positions (g : idea → Z) t :
  positions (map (λ r, set_archived (g r) r) t) = positions t.
Proof. unfold positions. rewrite map_map. by apply map_ext. Qed.

Lemma select_max_pos_positions t1 t2 :
  positions t1 = positions t2 → select_max_pos t1 = select_max_pos t2.
Proof.
  revert t2. induction t1 as [|x t1 IH]; intros [|y t2] H; try done.
  injection H as Hp Ht. simpl. by rewrite (IH t2 Ht), Hp.
Qed.

Lemma find_after_update f id t :
  (∀ r, idea_id (f r) = idea_id r) →
  List.find (λ r, idea_id r =? id) (sql_update f id t)
  = f <$> List.find (λ r, idea_id r =? id) t.
Proof.
  intros Hf. induction t as [|x t IH]; simpl; [done|].
  destruct (Z.eqb_spec (idea_id x) id) as [E|E].
  - rewrite Hf. by destruct (Z.eqb_spec (idea_id x) id).
  - by destruct (Z.eqb_spec (idea_id x) id).
Qed.

Lemma find_after_update_other f id id' t :
  (∀ r, idea_id (f r) = idea_id r) → id' ≠ id →
  List.find (λ r, idea_id r =? id') (sql_update f id t)
  = List.find (λ r, idea_id r =? id') t.
Proof.
  intros Hf Hne. induction t as [|x t IH]; simpl; [done|].
  destruct (Z.eqb_spec (idea_id x) id) as [E|E].
  - rewrite Hf. destruct (Z.eqb_spec (idea_id x) id'); [congruence|done].
  - by rewrite IH.
Qed.

(** What a toggle writes, for a flag that is 0 or 1. *)
Lemma toggle_table c id a :
  flag a →
  ideas_table (toggle_idea_archived c id a)
  = sql_update (set_archived (1 - a)) id (ideas_table c).
Proof. by intros [-> | ->]. Qed.

(** The scan of the toggled store is the toggled scan. *)
Lemma get_ideas_toggle c id a o :
  flag a →
  get_ideas (toggle_idea_archived c id a) o
  = sql_update (set_archived (1 - a)) id (get_ideas c o).
Proof.
  intros Ha. rewrite sql_update_set_archived, <- get_ideas_set_archived.
  unfold get_ideas. by rewrite toggle_table, sql_update_set_archived.
Qed.

(** Two toggles of the row with a given id, the second from the value the
    first one wrote, give back the store. *)
Lemma toggle_toggle c id r :
  unique_ids c → find_idea c id = Some r → flag (archived r) →
  toggle_idea_archived (toggle_idea_archived c id (archived r)) id
                       (1 - archived r) = c.
Proof.
  intros Hnd Hfind Hflag.
  assert (∀ x, x ∈ ideas_table c → idea_id x = id → x = r) as Huniq.
  { intros x Hx Hid. pose proof (find_idea_unique c x Hnd Hx) as E.
    rewrite Hid, Hfind in E. congruence. }
  assert (flag (1 - archived r)) as Hflag'
    by (destruct Hflag as [-> | ->]; [by right|by left]).
  destruct c as [t s]. unfold toggle_idea_archived at 1.
  cbn [sqlite_sequence]. f_equal.
  change (ideas_table (toggle_idea_archived
            (toggle_idea_archived (Conn t s) id (archived r)) id (1 - archived r)) = t).
  rewrite !toggle_table by done. cbn [ideas_table] in *.
  replace (1 - (1 - archived r)) with (archived r) by lia.
  unfold sql_update. rewrite map_map.
  rewrite <- (map_id t) at 2. apply map_ext_in. intros x Hx.
  apply list_elem_of_In in Hx.
  destruct (Z.eqb_spec (idea_id x) id) as [E|E]; simpl.
  - rewrite (proj2 (Z.eqb_eq _ _) E). rewrite (Huniq x Hx E). by destruct r.
  - by destruct (Z.eqb_spec (idea_id x) id).
Qed.

(** C6: toggling the flag of a row twice, each time from the value read
    from the store, gives back the store as it was; the first toggle
    changes the [archived] field of that row and nothing else; and no write
    to [archived] changes the order of a scan, a position, or the position
    the next insert will take. *)
Theorem toggle_archived_twice c id r :
  unique_ids c → find_idea c id = Some r → flag (archived r) →
  let c1 := toggle_idea_archived c id (archived r) in
  (∃ r1, find_idea c1 id = Some r1 ∧
         r1 = set_archived (1 - archived r) r ∧
         toggle_idea_archived c1 id (archived r1) = c) ∧
  (∀ id', id' ≠ id → find_idea c1 id' = find_idea c id') ∧
  (∀ o, ids (get_ideas c1 o) = ids (get_ideas c o) ∧
        positions (get_ideas c1 o) = positions (get_ideas c o)) ∧
  positions (ideas_table c1) = positions (ideas_table c) ∧
  select_max_pos (ideas_table c1) = select_max_pos (ideas_table c) ∧
  (∀ (g : idea → Z) o,
     get_ideas (Conn (map (λ x, set_archived (g x) x) (ideas_table c))
                     (sqlite_sequence c)) o
     = map (λ x, set_archived (g x) x) (get_ideas c o)).
Proof.
  intros Hnd Hfind Hflag c1.
  pose proof (toggle_table c id (archived r) Hflag) as Ht1. fold c1 in Ht1.
  split_and!.
  - exists (set_archived (1 - archived r) r). split_and!; [|done|].
    + unfold find_idea. rewrite Ht1, find_after_update by done.
      unfold find_idea in Hfind. by rewrite Hfind.
    + by apply toggle_toggle.
  - intros id' Hne. unfold find_idea. rewrite Ht1.
    by apply find_after_update_other.
  - intros o. unfold c1. rewrite get_ideas_toggle, sql_update_set_archived by done.
    split; [apply map_set_archived_ids|apply map_set_archived_positions].
  - rewrite Ht1, sql_update_set_archived. apply map_set_archived_positions.
  - apply select_max_pos_positions.
    rewrite Ht1, sql_update_set_archived. apply map_set_archived_positions.
  - intros g o. apply get_ideas_set_archived.
Qed.

Lemma toggle_archived_twice_witness :
  let c1 := toggle_idea_archived db_abc 2 (archived idea_B) in
  (∃ r1, find_idea c1 2 = Some r1 ∧
         r1 = set_archived (1 - archived idea_B) idea_B ∧
         toggle_idea_archived c1 2 (archived r1) = db_abc) ∧
  (∀ id', id' ≠ 2 → find_idea c1 id' = find_idea db_abc id') ∧
  (∀ o, ids (get_ideas c1 o) = ids (get_ideas db_abc o) ∧
        positions (get_ideas c1 o) = positions (get_ideas db_abc o)) ∧
  positions (ideas_table c1) = positions (ideas_table db_abc) ∧
  select_max_pos (ideas_table c1) = select_max_pos (ideas_table db_abc) ∧
  (∀ (g : idea → Z) o,
     get_ideas (Conn (map (λ x, set_archived (g x) x) (ideas_table db_abc))
                     (sqlite_sequence db_abc)) o
     = map (λ x, set_archived (g x) x) (get_ideas db_abc o)).
Proof.
  apply (toggle_archived_twice db_abc 2 idea_B).
  - exact unique_ids_abc.
  - reflexivity.
  - left. reflexivity.
Defined.

(** * The view and the dialog *)

Lemma clamp_selection_idem n s :
  0 ≤ n → clamp_selection n (clamp_selection n s) = clamp_selection n s.
Proof.
  intros Hn. unfold clamp_selection.
  repeat match goal with
  | |- context [Z.geb ?a ?b] => destruct (Z.geb_spec a b)
  | |- context [Z.ltb ?a ?b] => destruct (Z.ltb_spec a b)
  end; lia.
Qed.

Lemma adjust_scroll_idem v s off :
  1 ≤ v → adjust_scroll v s (adjust_scroll v s off) = adjust_scroll v s off.
Proof.
  intros Hv. unfold adjust_scroll.
  repeat match goal with
  | |- context [Z.geb ?a ?b] => destruct (Z.geb_spec a b)
  | |- context [Z.ltb ?a ?b] => destruct (Z.ltb_spec a b)
  end; lia.
Qed.

(** The view computed at the top of an iteration is stable: computing it
    again for the same list and terminal changes nothing. *)
Lemma refresh_view_idem v n st :
  1 ≤ v → 0 ≤ n → refresh_view v n (refresh_view v n st) = refresh_view v n st.
Proof.
  intros Hv Hn. unfold refresh_view.
  cbn [db current_order current_selection moving_idea_index reorder_list
       scroll_offset].
  by rewrite clamp_selection_idem, adjust_scroll_idem.
Qed.

Lemma selected_in_range {A} (l : list A) s :
  0 < len l → ∃ x, py_getitem l (clamp_selection (len l) s) = Some x.
Proof.
  intros Hl. destruct (py_getitem_in_range l (clamp_selection (len l) s)) as (x & Hx & _).
  - pose proof (clamp_selection_range (len l) s). lia.
  - by exists x.
Qed.

(** C4: with the ideas sorted by date, the space bar makes the screen
    flash and the handler gives back the state it was given: the store,
    the order, the selection, the scroll offset and [moving_idea_index]
    (still [None]) are those of the view on the screen. *)
Theorem move_rejected_by_date st ev :
  moving_idea_index st = None → current_order st = ByCreatedDate →
  key ev = ord " " → 1 ≤ visible_of ev →
  let ideas := get_ideas (db st) ByCreatedDate in
  let shown := refresh_view (visible_of ev) (len ideas) st in
  handle_key ev (visible_of ev) ideas shown = Continue shown true ∧
  loop_body ev st = Continue shown true ∧
  loop_body ev shown = Continue shown true ∧
  db shown = db st ∧ current_order shown = ByCreatedDate ∧
  moving_idea_index shown = None ∧ reorder_list shown = reorder_list st.
Proof.
  intros Hm Ho Hk Hv ideas shown.
  assert (handle_key ev (visible_of ev) ideas shown = Continue shown true) as Hh.
  { unfold handle_key. rewrite Hk. cbn. by rewrite Ho. }
  assert (∀ s, moving_idea_index s = None → current_order s = ByCreatedDate →
               db s = db st →
               loop_body ev s
               = handle_key ev (visible_of ev) ideas
                   (refresh_view (visible_of ev) (len ideas) s)) as Hl.
  { intros s Hms Hos Hdb. unfold loop_body.
    destruct (Z.ltb_spec (visible_of ev) 1); [lia|].
    unfold shown_ideas. by rewrite Hms, Hos, Hdb. }
  split_and!; try done.
  - by rewrite Hl.
  - rewrite Hl by done. fold shown.
    unfold shown. rewrite refresh_view_idem; [done..|apply len_nonneg].
Qed.

Lemma move_rejected_by_date_witness :
  let ideas := get_ideas (db st_by_date) ByCreatedDate in
  let shown := refresh_view (visible_of (press (ord " "))) (len ideas) st_by_date in
  handle_key (press (ord " ")) (visible_of (press (ord " "))) ideas shown
    = Continue shown true ∧
  loop_body (press (ord " ")) st_by_date = Continue shown true ∧
  loop_body (press (ord " ")) shown = Continue shown true ∧
  db shown = db st_by_date ∧ current_order shown = ByCreatedDate ∧
  moving_idea_index shown = None ∧ reorder_list shown = reorder_list st_by_date.
Proof.
  apply (move_rejected_by_date st_by_date (press (ord " "))).
  - reflexivity.
  - reflexivity.
  - reflexivity.
  - vm_compute. discriminate.
Defined.

(** One iteration with no idea being moved and a terminal that is large
    enough: the key is dispatched on the fresh scan. *)
Lemma loop_body_idle ev st :
  moving_idea_index st = None → 1 ≤ visible_of ev →
  let ideas := get_ideas (db st) (current_order st) in
  loop_body ev st
  = handle_key ev (visible_of ev) ideas (refresh_view (visible_of ev) (len ideas) st).
Proof.
  intros Hm Hv. unfold loop_body.
  destruct (Z.ltb_spec (visible_of ev) 1); [lia|].
  unfold shown_ideas. by rewrite Hm.
Qed.

Lemma find_idea_after_info c r t n :
  unique_ids c → r ∈ ideas_table c →
  find_idea (update_idea_info c (idea_id r) t n) (idea_id r) = Some (set_info t n r).
Proof.
  intros Hnd Hin. unfold find_idea, update_idea_info. cbn [ideas_table].
  rewrite find_after_update by done.
  pose proof (find_idea_unique c r Hnd Hin) as E. unfold find_idea in E.
  by rewrite E.
Qed.

(** C7: in the edit dialog a title line that is empty or blank gives the
    title the idea had, the notes are the text of the edit box stripped,
    and after the confirming [y] the row of the idea holds that title and
    those notes. *)
Theorem edit_blank_title_keeps_title st ev idea typed gathered :
  unique_ids (db st) →
  moving_idea_index st = None → 1 ≤ visible_of ev → key ev = ord "e" →
  (let ideas := get_ideas (db st) (current_order st) in
   py_getitem ideas (clamp_selection (len ideas) (current_selection st)) = Some idea) →
  get_line_with_esc (dw - 4) [] (title_keys (dialog ev)) = Returns (Some typed) →
  strip typed = [] →
  notes_edit (dialog ev) = TextboxText gathered →
  confirm_prompt (confirm_keys (dialog ev)) = Returns true →
  edit_idea_dialog (dialog ev) (title idea) (notes idea)
    = Returns (Some (title idea, strip gathered)) ∧
  ∃ st',
    loop_body ev st = Continue st' false ∧
    db st' = update_idea_info (db st) (idea_id idea) (title idea) (strip gathered) ∧
    find_idea (db st') (idea_id idea)
      = Some (set_info (title idea) (strip gathered) idea).
Proof.
  intros Hnd Hm Hv Hk Hsel Hline Hblank Hnotes Hyes. cbn zeta in Hsel.
  assert (edit_idea_dialog (dialog ev) (title idea) (notes idea)
          = Returns (Some (title idea, strip gathered))) as Hdlg.
  { unfold edit_idea_dialog, dialog_template_idea.
    by rewrite Hline, Hblank, Hnotes, Hyes. }
  split; [done|].
  rewrite loop_body_idle by done. cbn zeta.
  set (ideas := get_ideas (db st) (current_order st)) in *.
  assert (0 < len ideas) as Hlen.
  { destruct ideas; [|unfold len; simpl; lia].
    unfold py_getitem, py_index in Hsel. by repeat (case_match; simplify_eq/=). }
  unfold handle_key. rewrite Hk.
  cbn [refresh_view db current_order current_selection moving_idea_index
       reorder_list scroll_offset].
  rewrite Hm. change (ord "e" =? ord "q") with false.
  change (ord "e" =? KEY_RESIZE) with false.
  change (ord "e" =? KEY_UP) with false.
  change (ord "e" =? KEY_DOWN) with false.
  change (ord "e" =? ord "o") with false.
  change (ord "e" =? ord "a") with false.
  change (ord "e" =? KEY_DC) with false.
  change (ord "e" =? KEY_BACKSPACE) with false.
  change (ord "e" =? 127) with false.
  change (ord "e" =? ord "d") with false.
  change (ord "e" =? ord "e") with true.
  cbn [orb andb is_None].
  destruct (Z.gtb_spec (len ideas) 0); [|lia].
  rewrite Hsel, Hdlg. eexists. split_and!; [done..|].
  cbn [db]. apply find_idea_after_info; [done|].
  assert (idea ∈ ideas) as Hin.
  { unfold py_getitem in Hsel. destruct (py_index ideas _); [|done].
    by eapply list_elem_of_lookup_2. }
  unfold ideas, get_ideas in Hin. by rewrite order_rows_perm in Hin.
Qed.

Lemma edit_blank_title_keeps_title_witness :
  edit_idea_dialog (dialog edit_blank) (str_of "Old") (str_of "old notes")
    = Returns (Some (str_of "Old", str_of "trimmed")) ∧
  ∃ st',
    loop_body edit_blank st_old = Continue st' false ∧
    db st' = update_idea_info (db st_old) 1 (str_of "Old") (str_of "trimmed") ∧
    find_idea (db st') 1
      = Some (Idea 1 (str_of "Old") 0 (str_of "2024-01-01") (str_of "trimmed") 0).
Proof.
  apply (edit_blank_title_keeps_title st_old edit_blank idea_old
           [ord " "] (str_of "  trimmed  ")).
  - apply (bool_decide_unpack _). exact I.
  - reflexivity.
  - vm_compute. discriminate.
  - reflexivity.
  - reflexivity.
  - reflexivity.
  - reflexivity.
  - reflexivity.
  - reflexivity.
Defined.

Lemma cancelled_returns_None inp t n :
  cancelled inp → dialog_template_idea inp t n = Returns None.
Proof.
  unfold dialog_template_idea.
  intros [H|[(typed & H & Hn)|(typed & gathered & H & Hn & Hc)]]; rewrite H; [done|..].
  - by rewrite Hn.
  - by rewrite Hn, Hc.
Qed.

(** C8: when the dialog opened by [a] or [e] is cancelled, at the title,
    at the notes or at the confirmation, it returns [None] and the
    iteration ends with the store it began with, the view being the one
    on the screen. *)
Theorem cancelled_dialog_writes_nothing st ev :
  moving_idea_index st = None →
  key ev = ord "a" ∨ key ev = ord "e" →
  cancelled (dialog ev) →
  (∀ t n, dialog_template_idea (dialog ev) t n = Returns None) ∧
  new_idea_dialog (dialog ev) = Returns None ∧
  ∃ st',
    loop_body ev st = Continue st' false ∧ db st' = db st ∧
    moving_idea_index st' = None ∧
    (1 ≤ visible_of ev →
     st' = refresh_view (visible_of ev)
             (len (get_ideas (db st) (current_order st))) st).
Proof.
  intros Hm Hk Hc.
  pose proof (λ t n, cancelled_returns_None (dialog ev) t n Hc) as Hnone.
  split; [done|]. split; [apply Hnone|].
  destruct (Z.ltb_spec (visible_of ev) 1) as [Hv|Hv].
  { exists st. unfold loop_body.
    destruct (Z.ltb_spec (visible_of ev) 1); [|lia].
    destruct Hk as [-> | ->]; (split_and!; [done..|lia]). }
  rewrite loop_body_idle by done. cbn zeta.
  set (ideas := get_ideas (db st) (current_order st)).
  eexists. split; [|split_and!; [| |intros _; reflexivity]; [done|by cbn]].
  unfold handle_key.
  cbn [refresh_view db current_order current_selection moving_idea_index
       reorder_list scroll_offset].
  rewrite Hm. destruct Hk as [-> | ->].
  - change (ord "a" =? ord "q") with false.
    change (ord "a" =? KEY_RESIZE) with false.
    change (ord "a" =? KEY_UP) with false.
    change (ord "a" =? KEY_DOWN) with false.
    change (ord "a" =? ord "o") with false.
    change (ord "a" =? ord "a") with true.
    cbn [orb andb is_None]. unfold new_idea_dialog. by rewrite Hnone.
  - change (ord "e" =? ord "q") with false.
    change (ord "e" =? KEY_RESIZE) with false.
    change (ord "e" =? KEY_UP) with false.
    change (ord "e" =? KEY_DOWN) with false.
    change (ord "e" =? ord "o") with false.
    change (ord "e" =? ord "a") with false.
    change (ord "e" =? KEY_DC) with false.
    change (ord "e" =? KEY_BACKSPACE) with false.
    change (ord "e" =? 127) with false.
    change (ord "e" =? ord "d") with false.
    change (ord "e" =? ord "e") with true.
    cbn [orb andb is_None].
    destruct (Z.gtb_spec (len ideas) 0) as [Hlen|Hlen]; [|done].
    destruct (selected_in_range ideas (current_selection st)) as [x ->]; [lia|].
    unfold edit_idea_dialog. by rewrite Hnone.
Qed.

Lemma cancelled_dialog_writes_nothing_witness :
  (∀ t n, dialog_template_idea (dialog edit_then_esc) t n = Returns None) ∧
  new_idea_dialog (dialog edit_then_esc) = Returns None ∧
  ∃ st',
    loop_body edit_then_esc st_old = Continue st' false ∧ db st' = db st_old ∧
    moving_idea_index st' = None ∧
    (1 ≤ visible_of edit_then_esc →
     st' = refresh_view (visible_of edit_then_esc)
             (len (get_ideas (db st_old) (current_order st_old))) st_old).
Proof.
  apply (cancelled_dialog_writes_nothing st_old edit_then_esc).
  - reflexivity.
  - right. reflexivity.
  - right. left. exists (str_of "New"). split; reflexivity.
Defined.

(** C10: with an empty list on the screen, the delete keys, [d] and [e]
    read no cell of the list and write nothing: the iteration ends with
    the store, the order and the move state it began with, and the handler
    gives back the view it was given. *)
Theorem empty_list_keys_do_nothing st ev :
  shown_ideas st = Some [] →
  key ev = KEY_DC ∨ key ev = KEY_BACKSPACE ∨ key ev = 127
  ∨ key ev = ord "d" ∨ key ev = ord "e" →
  ∃ st',
    loop_body ev st = Continue st' false ∧
    db st' = db st ∧ current_order st' = current_order st ∧
    moving_idea_index st' = moving_idea_index st ∧
    reorder_list st' = reorder_list st ∧
    (visible_of ev < 1 → st' = st) ∧
    (1 ≤ visible_of ev →
     st' = refresh_view (visible_of ev) 0 st ∧ current_selection st' = 0 ∧
     handle_key ev (visible_of ev) [] st' = Continue st' false).
Proof.
  intros Hshown Hk. unfold loop_body. rewrite Hshown.
  destruct (Z.ltb_spec (visible_of ev) 1) as [Hv|Hv].
  { exists st. split.
    - by destruct Hk as [-> |[-> |[-> |[-> | ->]]]].
    - split_and!; try done. lia. }
  assert (∀ s, handle_key ev (visible_of ev) [] s = Continue s false) as Hh.
  { intros s. unfold handle_key.
    destruct Hk as [-> |[-> |[-> |[-> | ->]]]]; cbn;
      by destruct (moving_idea_index s). }
  exists (refresh_view (visible_of ev) 0 st).
  split; [apply Hh|]. split_and!; try done; [lia|].
  intros _. split_and!; [done| |apply Hh].
  cbn. unfold clamp_selection.
  destruct (Z.geb_spec (current_selection st) 0); [done|].
  by destruct (Z.ltb_spec (current_selection st) 0); [|lia].
Qed.

Lemma empty_list_keys_do_nothing_witness :
  ∃ st',
    loop_body (press KEY_DC) st_empty = Continue st' false ∧
    db st' = db st_empty ∧ current_order st' = current_order st_empty ∧
    moving_idea_index st' = moving_idea_index st_empty ∧
    reorder_list st' = reorder_list st_empty ∧
    (visible_of (press KEY_DC) < 1 → st' = st_empty) ∧
    (1 ≤ visible_of (press KEY_DC) →
     st' = refresh_view (visible_of (press KEY_DC)) 0 st_empty ∧
     current_selection st' = 0 ∧
     handle_key (press KEY_DC) (visible_of (press KEY_DC)) [] st' = Continue st' false).
Proof.
  apply (empty_list_keys_do_nothing st_empty (press KEY_DC)).
  - reflexivity.
  - left. reflexivity.
Defined.

(** * The store invariant *)

Lemma store_ok_init : store_ok init_db.
Proof. split; [apply NoDup_nil_2|apply Forall_nil_2]. Qed.

Lemma sql_update_Forall (P : idea → Prop) f id t :
  (∀ r, P r → P (f r)) → Forall P t → Forall P (sql_update f id t).
Proof.
  intros Hf Ht. unfold sql_update. apply Forall_map.
  eapply Forall_impl; [exact Ht|]. intros r Hr. simpl.
  destruct (idea_id r =? id); auto.
Qed.

Lemma sql_update_ok f id c s :
  (∀ r, idea_id (f r) = idea_id r) →
  (∀ r, flag (archived r) → flag (archived (f r))) →
  store_ok c → store_ok (Conn (sql_update f id (ideas_table c)) s).
Proof.
  intros Hid Hfl [Hnd Hflags]. split.
  - unfold unique_ids. cbn [ideas_table]. by rewrite sql_update_ids.
  - cbn [ideas_table]. by apply sql_update_Forall.
Qed.

Lemma add_idea_ok c t n d : store_ok c → store_ok (add_idea c t n d).
Proof.
  intros [Hnd Hflags]. split.
  - unfold unique_ids, add_idea, ids in *. cbn [ideas_table].
    rewrite map_app. apply NoDup_app. split_and!; [done| |apply NoDup_singleton].
    intros x Hx. cbn. rewrite list_elem_of_singleton. intros ->.
    by apply next_rowid_fresh in Hx.
  - unfold add_idea. cbn [ideas_table]. apply Forall_app. split; [done|].
    repeat constructor.
Qed.

Lemma filter_ids_NoDup (P : idea → Prop) `{∀ r, Decision (P r)} t :
  NoDup (ids t) → NoDup (ids (filter P t)).
Proof.
  unfold ids. induction t as [|x t IH]; [done|].
  simpl. rewrite NoDup_cons. intros [Hx Hnd].
  rewrite filter_cons. destruct (decide (P x)); [|by apply IH].
  simpl. apply NoDup_cons. split; [|by apply IH].
  intros Hin. apply Hx.
  apply list_elem_of_In, in_map_iff in Hin as (r & Hr & Hin).
  apply list_elem_of_In, list_elem_of_filter in Hin as [_ Hin].
  rewrite <- Hr. apply list_elem_of_In, in_map, list_elem_of_In, Hin.
Qed.

Lemma delete_idea_ok c id : store_ok c → store_ok (delete_idea c id).
Proof.
  intros [Hnd Hflags]. split.
  - by apply filter_ids_NoDup.
  - unfold delete_idea. cbn [ideas_table].
    rewrite Forall_forall in Hflags |- *. intros r Hr.
    apply Hflags. by apply list_elem_of_filter in Hr as [_ ?].
Qed.

Lemma update_rows_from_ok rl : ∀ k c,
  store_ok c → store_ok (Conn (update_rows_from k rl (ideas_table c)) (sqlite_sequence c)).
Proof.
  induction rl as [|x rl IH]; intros k c Hok; simpl.
  - by destruct c.
  - apply (IH (k + 1) (Conn _ (sqlite_sequence c))).
    by apply sql_update_ok.
Qed.

Lemma update_idea_order_ok c rl : store_ok c → store_ok (update_idea_order c rl).
Proof. apply update_rows_from_ok. Qed.

Lemma toggle_idea_archived_ok c id a : store_ok c → store_ok (toggle_idea_archived c id a).
Proof.
  intros Hok. apply sql_update_ok; [done| |done].
  intros r _. cbn. unfold flag. destruct (py_bool a); auto.
Qed.

Lemma update_idea_info_ok c id t n : store_ok c → store_ok (update_idea_info c id t n).
Proof. intros Hok. by apply sql_update_ok. Qed.

(** Every iteration of the loop keeps the invariant. *)
Lemma loop_body_ok ev st st' fl :
  store_ok (db st) → loop_body ev st = Continue st' fl → store_ok (db st').
Proof.
  intros Hok. unfold loop_body, handle_key.
  cbn [refresh_view db current_order current_selection moving_idea_index
       reorder_list scroll_offset].
  intros Hstep.
  repeat (case_match; simplify_eq/=; try done);
    auto using add_idea_ok, delete_idea_ok, update_idea_order_ok,
      toggle_idea_archived_ok, update_idea_info_ok.
Qed.

Lemma main_loop_ok evs : ∀ st st',
  store_ok (db st) → main_loop evs st = Some st' → store_ok (db st').
Proof.
  induction evs as [|ev evs IH]; intros st st' Hok Hrun; simplify_eq/=; [done|].
  destruct (loop_body ev st) as [st1 fl| | |] eqn:Hstep; [|done..].
  eapply IH; [|exact Hrun]. by eapply loop_body_ok.
Qed.

(** * The relation [moving_from] and the loop function *)

Lemma moving_loop_next evs : ∀ st0 st1 st,
  moving_from st0 st1 → moving_loop evs st1 = Some st → moving_from st0 st.
Proof.
  induction evs as [|ev evs IH]; intros st0 st1 st Hfrom Hrun; simplify_eq/=; [done|].
  destruct (loop_body ev st1) as [st2 fl| | |] eqn:Hstep; [|done..].
  destruct (moving_idea_index st2) as [m|] eqn:Hm; [|done].
  eapply IH; [|exact Hrun].
  eapply moving_next; [exact Hfrom|exact Hstep|by rewrite Hm].
Qed.

(** A run of the loop that starts with no idea being moved and whose
    iterations all end with one being moved is a move in progress. *)
Lemma moving_loop_from ev evs st0 st :
  moving_idea_index st0 = None →
  moving_loop (ev :: evs) st0 = Some st → moving_from st0 st.
Proof.
  intros Hidle Hrun. cbn [moving_loop] in Hrun.
  destruct (loop_body ev st0) as [st1 fl| | |] eqn:Hstep; [|done..].
  destruct (moving_idea_index st1) as [m|] eqn:Hm; [|done].
  eapply moving_loop_next; [|exact Hrun].
  eapply moving_enter; [exact Hidle|exact Hstep|by rewrite Hm].
Qed.

(** * The archive key *)

Lemma lookup_map {A B} (f : A → B) (l : list A) (i : nat) :
  map f l !! i = f <$> l !! i.
Proof.
  revert i. induction l as [|x l IH]; intros [|i]; simpl; done.
Qed.

Lemma py_getitem_map {A B} (f : A → B) (l : list A) (i : Z) :
  py_getitem (map f l) i = f <$> py_getitem l i.
Proof.
  unfold py_getitem, py_index, len. rewrite length_map.
  case_match; [simpl; apply lookup_map|done].
Qed.

Lemma py_getitem_elem_of {A} (l : list A) (i : Z) (x : A) :
  py_getitem l i = Some x → x ∈ l.
Proof.
  unfold py_getitem. destruct (py_index l i); [|done].
  simpl. apply list_elem_of_lookup_2.
Qed.

(** [d] with no idea being moved and a list that is not empty toggles the
    selected idea. *)
Lemma archive_key ev st idea :
  moving_idea_index st = None → 1 ≤ visible_of ev → key ev = ord "d" →
  let ideas := get_ideas (db st) (current_order st) in
  let sel := clamp_selection (len ideas) (current_selection st) in
  py_getitem ideas sel = Some idea →
  loop_body ev st =
    Continue (State (toggle_idea_archived (db st) (idea_id idea) (archived idea))
                    (current_order st) sel None (reorder_list st)
                    (adjust_scroll (visible_of ev) sel (scroll_offset st))) false.
Proof.
  intros Hm Hv Hk ideas sel Hsel.
  rewrite loop_body_idle by done. cbn zeta. fold ideas.
  assert (0 < len ideas) as Hlen.
  { destruct ideas; [|unfold len; simpl; lia].
    unfold py_getitem, py_index in Hsel. by repeat (case_match; simplify_eq/=). }
  unfold handle_key. rewrite Hk.
  cbn [refresh_view db current_order current_selection moving_idea_index
       reorder_list scroll_offset].
  rewrite Hm. change (ord "d" =? ord "q") with false.
  change (ord "d" =? KEY_RESIZE) with false.
  change (ord "d" =? KEY_UP) with false.
  change (ord "d" =? KEY_DOWN) with false.
  change (ord "d" =? ord "o") with false.
  change (ord "d" =? ord "a") with false.
  change (ord "d" =? KEY_DC) with false.
  change (ord "d" =? KEY_BACKSPACE) with false.
  change (ord "d" =? 127) with false.
  change (ord "d" =? ord "d") with true.
  cbn [orb andb is_None].
  destruct (Z.gtb_spec (len ideas) 0); [|lia].
  fold sel. by rewrite Hsel.
Qed.

(** X24: [d] pressed twice gives back the store: the second press reads
    the flag the first one wrote, on the same row. *)
Lemma archive_key_twice ev1 ev2 st :
  store_ok (db st) → moving_idea_index st = None →
  key ev1 = ord "d" → 1 ≤ visible_of ev1 →
  key ev2 = ord "d" → 1 ≤ visible_of ev2 →
  ∃ st', main_loop [ev1; ev2] st = Some st' ∧ db st' = db st.
Proof.
  intros [Hnd Hflags] Hm Hk1 Hv1 Hk2 Hv2.
  set (ideas := get_ideas (db st) (current_order st)).
  set (sel := clamp_selection (len ideas) (current_selection st)).
  destruct (decide (0 < len ideas)) as [Hlen|Hlen].
  - destruct (selected_in_range ideas (current_selection st) Hlen) as [idea Hsel].
    fold sel in Hsel.
    assert (idea ∈ ideas_table (db st)) as Hin.
    { apply py_getitem_elem_of in Hsel. unfold ideas, get_ideas in Hsel.
      by rewrite order_rows_perm in Hsel. }
    assert (flag (archived idea)) as Hflag.
    { rewrite Forall_forall in Hflags. by apply Hflags. }
    cbn [main_loop]. rewrite (archive_key ev1 st idea) by done.
    fold ideas sel.
    set (st1 := State _ _ _ _ _ _).
    assert (get_ideas (db st1) (current_order st1)
            = sql_update (set_archived (1 - archived idea)) (idea_id idea) ideas)
      as Hscan by (by apply get_ideas_toggle).
    rewrite (archive_key ev2 st1 (set_archived (1 - archived idea) idea));
      [|done..|].
    + eexists. split; [done|]. cbn [db st1 idea_id archived set_archived].
      apply toggle_toggle; [done| |done]. by apply find_idea_unique.
    + cbn zeta. rewrite Hscan. unfold sql_update.
      rewrite py_getitem_map. unfold len. rewrite length_map.
      fold (len ideas). unfold st1. cbn [current_selection]. unfold sel.
      rewrite clamp_selection_idem by apply len_nonneg. fold sel.
      rewrite Hsel. simpl. by rewrite Z.eqb_refl.
  - assert (ideas = []) as Hnil.
    { destruct ideas; [done|]. unfold len in Hlen. simpl in Hlen. lia. }
    assert (∀ ev s, moving_idea_index s = None → db s = db st →
                    current_order s = current_order st →
                    key ev = ord "d" → 1 ≤ visible_of ev →
                    ∃ s', loop_body ev s = Continue s' false ∧ db s' = db st ∧
                          moving_idea_index s' = None ∧
                          current_order s' = current_order st) as Hnop.
    { intros ev s Hms Hdb Ho Hk Hv. rewrite loop_body_idle by done.
      cbn zeta. rewrite Hdb, Ho. fold ideas. rewrite Hnil.
      unfold handle_key. rewrite Hk. cbn. rewrite Hms. cbn.
      eexists. by split_and!. }
    destruct (Hnop ev1 st) as (s1 & Hs1 & Hdb1 & Hm1 & Ho1); [done..|].
    destruct (Hnop ev2 s1) as (s2 & Hs2 & Hdb2 & _); [done..|].
    exists s2. cbn [main_loop]. by rewrite Hs1, Hs2.
Qed.

(** * The dialog and the store *)

(** The dialog returns a title and notes only after [y] or [Y] at the
    confirmation prompt. *)
Lemma dialog_returns_after_confirm inp t n r :
  dialog_template_idea inp t n = Returns (Some r) →
  confirm_prompt (confirm_keys inp) = Returns true.
Proof.
  unfold dialog_template_idea. intros H.
  by repeat (case_match; simplify_eq/=).
Qed.

(** X25: when an iteration on [a] or [e], with no idea being moved,
    ends with another store than it began with, the dialog was confirmed
    with [y] or [Y]. *)
Lemma dialog_key_writes_after_confirm ev st st' fl :
  moving_idea_index st = None →
  key ev = ord "a" ∨ key ev = ord "e" →
  loop_body ev st = Continue st' fl → db st' ≠ db st →
  confirm_prompt (confirm_keys (dialog ev)) = Returns true.
Proof.
  intros Hm Hk Hstep Hdb. unfold loop_body in Hstep.
  destruct (Z.ltb_spec (visible_of ev) 1).
  { destruct (key ev =? ord "q"); simplify_eq. }
  unfold shown_ideas in Hstep. rewrite Hm in Hstep.
  unfold handle_key in Hstep.
  cbn [refresh_view db current_order moving_idea_index reorder_list
       scroll_offset current_selection] in Hstep.
  rewrite Hm in Hstep. cbn [is_None] in Hstep. rewrite !andb_true_r in Hstep.
  destruct Hk as [Hk|Hk]; rewrite Hk in Hstep; cbn in Hstep.
  - destruct (new_idea_dialog (dialog ev)) as [[[? ?]|]| |] eqn:Hd; simplify_eq/=.
    exact (dialog_returns_after_confirm _ _ _ _ Hd).
  - repeat (case_match; simplify_eq/=; try done).
    match goal with
    | Hd : edit_idea_dialog _ _ _ = Returns (Some _) |- _ =>
        exact (dialog_returns_after_confirm _ _ _ _ Hd)
    end.
Qed.

(** * The definitions at work *)

Example strip_trimmed : strip (str_of "  trimmed  ") = str_of "trimmed".
Proof. reflexivity. Qed.

Example strip_blank : strip (str_of "   ") = [].
Proof. reflexivity. Qed.

Example title_with_backspace :
  get_line_with_esc (dw - 4) []
    [ord "a"; ord "b"; KEY_BACKSPACE; ord "c"; ord "010"; ord "z"]
  = Returns (Some (str_of "ac")).
Proof. reflexivity. Qed.

Example title_cancelled :
  get_line_with_esc (dw - 4) [] [ord "a"; ESC; ord "010"] = Returns None.
Proof. reflexivity. Qed.

Example title_unfinished :
  get_line_with_esc (dw - 4) [] [ord "a"; ord "b"] = Waits.
Proof. reflexivity. Qed.

(** An empty store, then "Buy milk": one row at position 0. *)
Example first_idea :
  ideas_table (add_idea init_db (str_of "Buy milk") (str_of "2% preferably")
                        (str_of "2024-02-01"))
  = [Idea 1 (str_of "Buy milk") 0 (str_of "2024-02-01")
          (str_of "2% preferably") 0].
Proof. reflexivity. Qed.

(** A deleted position is not filled, and the id of a deleted row is not
    given again. *)
Example add_after_delete :
  ideas_table (add_idea (delete_idea db_abc 3) (str_of "D") [] (str_of "2024-02-01"))
  = [idea_A; idea_B; Idea 4 (str_of "D") 2 (str_of "2024-02-01") [] 0].
Proof. reflexivity. Qed.

(** A, B, C; B selected; space, arrow up, space: B, A, C at 0, 1, 2. *)
Example move_B_up :
  ∃ st', main_loop [press (ord " "); press KEY_UP; press (ord " ")] st_abc = Some st' ∧
         ids (get_ideas (db st') ByPos) = [2; 1; 3] ∧
         positions (get_ideas (db st') ByPos) = [0; 1; 2] ∧
         current_selection st' = 0 ∧ moving_idea_index st' = None.
Proof. eexists. split; [reflexivity|]. by vm_compute. Qed.

(** The arrows at the two ends of the list leave it as it is. *)
Example move_at_the_ends :
  loop_body (press KEY_UP) st_bac = Continue st_bac false ∧
  loop_body (press KEY_DOWN)
            (State db_abc ByPos 2 (Some 2) (Some [idea_A; idea_B; idea_C]) 0)
  = Continue (State db_abc ByPos 2 (Some 2) (Some [idea_A; idea_B; idea_C]) 0) false.
Proof. split; reflexivity. Qed.

(** Sorting by date and back shows the position order again. *)
Example sort_by_date_and_back :
  ∃ st', main_loop [Event 24 (ord "o") (str_of "d") no_dialog [];
                    Event 24 (ord "o") (str_of "i") no_dialog []] st_abc = Some st' ∧
         current_order st' = ByPos ∧ db st' = db_abc.
Proof. eexists. split; [reflexivity|]. done. Qed.

(** A negative index counts from the end; on an empty list every index is
    out of range. *)
Example getitem_examples :
  py_getitem [idea_A; idea_B] (-1) = Some idea_B ∧
  py_getitem [idea_A; idea_B] 2 = None ∧
  py_getitem (@nil idea) 0 = None.
Proof. done. Qed.

(** * The title line *)

Lemma removelast_snoc {A} (l : list A) (x : A) : removelast (l ++ [x]) = l.
Proof. apply removelast_last. Qed.

Lemma len_app {A} (l1 l2 : list A) : len (l1 ++ l2) = len l1 + len l2.
Proof. unfold len. rewrite length_app. lia. Qed.

Lemma len_snoc {A} (l : list A) (x : A) : len (l ++ [x]) = len l + 1.
Proof. rewrite len_app. unfold len. simpl. lia. Qed.

Lemma len_removelast {A} (l : list A) : 0 < len l → len (removelast l) = len l - 1.
Proof.
  destruct l as [|x l] using rev_ind; [unfold len; simpl; lia|].
  intros _. rewrite removelast_snoc, len_snoc. lia.
Qed.

(** One step of [get_line_with_esc] on a key that is appended. *)
Lemma get_line_plain max s ch keys :
  plain_key ch →
  get_line_with_esc max s (ch :: keys)
  = if len s <? max then get_line_with_esc max (s ++ [ch]) keys
    else get_line_with_esc max s keys.
Proof.
  intros (Hesc & Hent & Hbs & Hrange). simpl.
  unfold enter_key, backspace_key in *.
  destruct (Z.eqb_spec ch ESC); [done|].
  destruct (Z.eqb_spec ch KEY_ENTER); [tauto|].
  destruct (Z.eqb_spec ch (ord "010")); [tauto|].
  destruct (Z.eqb_spec ch KEY_BACKSPACE); [tauto|].
  destruct (Z.eqb_spec ch 127); [tauto|].
  destruct (Z.eqb_spec ch 8); [tauto|].
  simpl. unfold chr.
  destruct (Z.leb_spec 0 ch); [|lia].
  destruct (Z.ltb_spec ch 1114112); [done|lia].
Qed.

Lemma get_line_enter max s ch keys :
  enter_key ch → get_line_with_esc max s (ch :: keys) = Returns (Some s).
Proof.
  intros [-> | ->]; reflexivity.
Qed.

Lemma get_line_backspace max s ch keys :
  backspace_key ch →
  get_line_with_esc max s (ch :: keys)
  = get_line_with_esc max (if len s >? 0 then removelast s else s) keys.
Proof.
  intros [-> |[-> | ->]]; simpl; by destruct (len s >? 0).
Qed.

Lemma get_line_bounded max keys : ∀ s r,
  len s ≤ max →
  get_line_with_esc max s keys = Returns (Some r) → len r ≤ max.
Proof.
  induction keys as [|ch keys IH]; intros s r Hs Hr; [done|].
  simpl in Hr.
  destruct (ch =? ESC); [done|].
  destruct ((ch =? KEY_ENTER) || (ch =? ord "010")); [by simplify_eq|].
  destruct ((ch =? KEY_BACKSPACE) || (ch =? 127) || (ch =? 8)).
  - destruct (Z.gtb_spec (len s) 0); [|by eapply IH].
    eapply IH; [|exact Hr]. rewrite len_removelast by lia. lia.
  - destruct (Z.ltb_spec (len s) max); [|by eapply IH].
    destruct (chr ch) as [c|]; [|done].
    eapply IH; [|exact Hr]. rewrite len_snoc. lia.
Qed.

(** X1: the line returned by [get_line_with_esc] is never longer than
    [max_length], whatever is typed. *)
Theorem get_line_length max keys s r :
  len s ≤ max →
  get_line_with_esc max s keys = Returns (Some r) → len r ≤ max.
Proof. apply get_line_bounded. Qed.

Lemma get_line_length_witness :
  len (str_of "ab") ≤ 2.
Proof.
  apply (get_line_length 2 [ord "a"; ord "b"; ord "c"; ord "010"] [] (str_of "ab")).
  - vm_compute. discriminate.
  - reflexivity.
Defined.

(** X2: plain keys followed by ENTER give back what was typed, cut at
    [max_length] characters; the keys after ENTER are not read. *)
Theorem get_line_typed max chars enter rest :
  0 ≤ max → Forall plain_key chars → enter_key enter →
  get_line_with_esc max [] (chars ++ enter :: rest)
  = Returns (Some (take (Z.to_nat max) chars)).
Proof.
  intros Hmax Hchars Henter.
  assert (∀ s, len s ≤ max →
               get_line_with_esc max s (chars ++ enter :: rest)
               = Returns (Some (s ++ take (Z.to_nat (max - len s)) chars))) as Hgen.
  { induction Hchars as [|ch chars Hch _ IH]; intros s Hs.
    - simpl app. rewrite get_line_enter by done. by rewrite take_nil, app_nil_r.
    - simpl app. rewrite get_line_plain by done.
      destruct (Z.ltb_spec (len s) max).
      + rewrite IH by (rewrite len_snoc; lia).
        rewrite len_snoc.
        replace (Z.to_nat (max - len s)) with (S (Z.to_nat (max - (len s + 1))))
          by lia.
        simpl. by rewrite <- app_assoc.
      + rewrite IH by done.
        replace (Z.to_nat (max - len s)) with 0%nat by lia. done. }
  rewrite Hgen by (unfold len; simpl; lia). simpl. do 3 f_equal. unfold len. simpl. lia.
Qed.

Lemma plain_key_decide ch :
  bool_decide (ch ≠ ESC ∧ ch ≠ KEY_ENTER ∧ ch ≠ ord "010" ∧ ch ≠ KEY_BACKSPACE ∧
               ch ≠ 127 ∧ ch ≠ 8 ∧ 0 ≤ ch < 1114112) = true →
  plain_key ch.
Proof.
  intros H. apply bool_decide_eq_true in H as (? & ? & ? & ? & ? & ? & ?).
  unfold plain_key, enter_key, backspace_key. split_and!; try done; tauto.
Defined.

Lemma get_line_typed_witness :
  get_line_with_esc 3 [] (str_of "Idea" ++ KEY_ENTER :: [ord "x"])
  = Returns (Some (take (Z.to_nat 3) (str_of "Idea"))).
Proof.
  apply (get_line_typed 3 (str_of "Idea") KEY_ENTER [ord "x"]).
  - vm_compute. discriminate.
  - repeat constructor; by apply plain_key_decide.
  - by left.
Defined.

(** X3: ESC typed before any ENTER cancels the line, whatever was typed
    before it and whatever follows. *)
Theorem get_line_esc max typed rest : ∀ s,
  Forall (λ ch, ¬ enter_key ch ∧ 0 ≤ ch < 1114112) typed →
  get_line_with_esc max s (typed ++ ESC :: rest) = Returns None.
Proof.
  induction typed as [|ch typed IH]; intros s Htyped; [done|].
  apply Forall_cons in Htyped as [[Hent Hrange] Htyped].
  cbn [app get_line_with_esc].
  destruct (ch =? ESC); [done|].
  unfold enter_key in Hent.
  destruct (Z.eqb_spec ch KEY_ENTER); [tauto|].
  destruct (Z.eqb_spec ch (ord "010")); [tauto|].
  cbn [orb].
  destruct ((ch =? KEY_BACKSPACE) || (ch =? 127) || (ch =? 8)).
  - destruct (len s >? 0); by apply IH.
  - destruct (len s <? max); [|by apply IH].
    unfold chr. destruct (Z.leb_spec 0 ch); [|lia].
    destruct (Z.ltb_spec ch 1114112); [|lia]. by apply IH.
Qed.

Lemma get_line_esc_witness :
  get_line_with_esc 66 [] ([ord "a"; KEY_BACKSPACE; ord "b"] ++ ESC :: [ord "010"])
  = Returns None.
Proof.
  apply (get_line_esc 66 [ord "a"; KEY_BACKSPACE; ord "b"] [ord "010"] []).
  repeat constructor; unfold enter_key; vm_compute; try discriminate.
  all: intros [H|H]; discriminate H.
Defined.

(** X4: a backspace takes back the character typed just before it, and on
    an empty line it does nothing. *)
Theorem get_line_backspace_undoes max s ch bs keys :
  plain_key ch → backspace_key bs → len s < max →
  get_line_with_esc max s (ch :: bs :: keys) = get_line_with_esc max s keys ∧
  get_line_with_esc max [] (bs :: keys) = get_line_with_esc max [] keys.
Proof.
  intros Hch Hbs Hlen. split.
  - rewrite get_line_plain by done.
    destruct (Z.ltb_spec (len s) max); [|lia].
    rewrite get_line_backspace by done.
    rewrite len_snoc. destruct (Z.gtb_spec (len s + 1) 0).
    + by rewrite removelast_snoc.
    + pose proof (len_nonneg s). lia.
  - by rewrite get_line_backspace.
Qed.

Lemma get_line_backspace_undoes_witness :
  get_line_with_esc 66 (str_of "ab") (ord "c" :: 127 :: [ord "010"])
  = get_line_with_esc 66 (str_of "ab") [ord "010"] ∧
  get_line_with_esc 66 [] (127 :: [ord "010"]) = get_line_with_esc 66 [] [ord "010"].
Proof.
  apply (get_line_backspace_undoes 66 (str_of "ab") (ord "c") 127 [ord "010"]).
  - by apply plain_key_decide.
  - right. by left.
  - vm_compute. reflexivity.
Defined.

(** X5: the confirmation prompt skips every key that is not [y], [Y],
    [n], [N] or ESC and answers to the first one that is. *)
Theorem confirm_prompt_skips junk k rest :
  Forall (λ j, ¬ answer_key j) junk → answer_key k →
  confirm_prompt (junk ++ k :: rest)
  = Returns (bool_decide (k = ord "y" ∨ k = ord "Y")).
Proof.
  intros Hjunk Hk. induction Hjunk as [|j junk Hj _ IH].
  - cbn [app confirm_prompt].
    destruct Hk as [-> |[-> |[-> |[-> | ->]]]]; reflexivity.
  - cbn [app confirm_prompt]. unfold answer_key in Hj.
    destruct (Z.eqb_spec j (ord "y")); [tauto|].
    destruct (Z.eqb_spec j (ord "Y")); [tauto|].
    destruct (Z.eqb_spec j (ord "n")); [tauto|].
    destruct (Z.eqb_spec j (ord "N")); [tauto|].
    destruct (Z.eqb_spec j ESC); [tauto|]. exact IH.
Qed.

Lemma confirm_prompt_skips_witness :
  confirm_prompt ([ord "x"; KEY_UP] ++ ord "N" :: [ord "y"])
  = Returns (bool_decide (ord "N" = ord "y" ∨ ord "N" = ord "Y")).
Proof.
  apply (confirm_prompt_skips [ord "x"; KEY_UP] (ord "N") [ord "y"]).
  - repeat constructor; intros [H|[H|[H|[H|H]]]]; discriminate H.
  - right. right. right. by left.
Defined.

(** * What the dialog returns *)

Lemma lstrip_head s x rest : lstrip s = x :: rest → py_isspace x = false.
Proof.
  induction s as [|c s IH]; simpl; [done|].
  destruct (py_isspace c) eqn:E; [done|]. by intros [= <- _].
Qed.

Lemma lstrip_keeps x rest : py_isspace x = false → lstrip (x :: rest) = x :: rest.
Proof. intros E. simpl. by rewrite E. Qed.

Lemma lstrip_app s x rest :
  py_isspace x = false → lstrip (s ++ x :: rest) = lstrip s ++ x :: rest.
Proof.
  intros E. induction s as [|c s IH]; simpl; [by rewrite E|].
  by destruct (py_isspace c).
Qed.

Lemma rstrip_cons x s : py_isspace x = false → rstrip (x :: s) = x :: rstrip s.
Proof.
  intros E. unfold rstrip. simpl.
  rewrite lstrip_app by done. by rewrite rev_app_distr.
Qed.

Lemma rstrip_last s init x : rstrip s = init ++ [x] → py_isspace x = false.
Proof.
  unfold rstrip. intros H. apply (f_equal (@rev Z)) in H.
  rewrite rev_involutive, rev_app_distr in H. simpl in H.
  by apply lstrip_head in H.
Qed.

(** The result of [strip] neither begins nor ends with white space. *)
Lemma strip_is_trimmed s : trimmed (strip s).
Proof.
  unfold strip. split.
  - intros x rest H. destruct (lstrip s) as [|y l] eqn:E; [done|].
    pose proof (lstrip_head _ _ _ E) as Hy.
    rewrite rstrip_cons in H by done. by simplify_eq.
  - intros init x H. by apply rstrip_last in H.
Qed.

(** [strip] leaves such a string as it is. *)
Lemma strip_of_trimmed s : trimmed s → strip s = s.
Proof.
  intros [Hhead Hlast]. unfold strip.
  assert (lstrip s = s) as ->.
  { destruct s as [|x rest]; [done|]. apply lstrip_keeps. by eapply Hhead. }
  unfold rstrip.
  assert (lstrip (rev s) = rev s) as ->; [|apply rev_involutive].
  destruct s as [|x rest] using rev_ind; [done|].
  rewrite rev_app_distr. simpl. apply lstrip_keeps. by eapply Hlast.
Qed.

(** X6: the title the dialog returns is the initial title or a typed title
    that is not blank; so editing an idea whose title is not blank never
    gives a blank title, and a new idea gets the empty title or one that
    is not blank. *)
Theorem dialog_title_not_blank inp init_title init_notes t n :
  dialog_template_idea inp init_title init_notes = Returns (Some (t, n)) →
  (t = init_title ∨ strip t ≠ []) ∧
  (strip init_title ≠ [] → strip t ≠ []) ∧
  (init_title = [] → t = [] ∨ strip t ≠ []) ∧
  len t ≤ Z.max (len init_title) (dw - 4).
Proof.
  unfold dialog_template_idea. intros H.
  destruct (get_line_with_esc (dw - 4) [] (title_keys inp)) as [[typed|]| |] eqn:Hline;
    try done.
  destruct (notes_edit inp); [done|].
  destruct (confirm_prompt (confirm_keys inp)) as [[|]| |]; try done.
  injection H as <- _.
  apply get_line_bounded in Hline; [|by vm_compute].
  destruct (strip typed) as [|c l] eqn:E; simpl.
  - split_and!; [by left|done|by left|lia].
  - split_and!; [right|intros _|intros _; right|lia]; by rewrite E.
Qed.

Lemma dialog_title_not_blank_witness :
  (str_of "Old" = str_of "Old" ∨ strip (str_of "Old") ≠ []) ∧
  (strip (str_of "Old") ≠ [] → strip (str_of "Old") ≠ []) ∧
  (str_of "Old" = [] → str_of "Old" = [] ∨ strip (str_of "Old") ≠ []) ∧
  len (str_of "Old") ≤ Z.max (len (str_of "Old")) (dw - 4).
Proof.
  apply (dialog_title_not_blank (dialog edit_blank) (str_of "Old")
           (str_of "old notes") (str_of "Old") (str_of "trimmed")).
  reflexivity.
Defined.

(** X7: the notes the dialog returns neither begin nor end with white
    space, and stripping them again changes nothing. *)
Theorem dialog_notes_trimmed inp init_title init_notes t n :
  dialog_template_idea inp init_title init_notes = Returns (Some (t, n)) →
  trimmed n ∧ strip n = n.
Proof.
  unfold dialog_template_idea. intros H.
  destruct (get_line_with_esc (dw - 4) [] (title_keys inp)) as [[typed|]| |];
    try done.
  destruct (notes_edit inp) as [|gathered]; [done|].
  destruct (confirm_prompt (confirm_keys inp)) as [[|]| |]; try done.
  injection H as _ <-.
  split; [apply strip_is_trimmed|apply strip_of_trimmed, strip_is_trimmed].
Qed.

Lemma dialog_notes_trimmed_witness :
  trimmed (str_of "trimmed") ∧ strip (str_of "trimmed") = str_of "trimmed".
Proof.
  apply (dialog_notes_trimmed (dialog edit_blank) (str_of "Old")
           (str_of "old notes") (str_of "Old") (str_of "trimmed")).
  reflexivity.
Defined.

(** * The scans *)

Lemma str_leb_total a : ∀ b, str_leb a b = false → str_leb b a = true.
Proof.
  induction a as [|x a IH]; intros [|y b]; simpl; try done.
  destruct (Z.ltb_spec x y); [done|].
  destruct (Z.ltb_spec y x); [done|]. apply IH.
Qed.

Lemma str_leb_trans a : ∀ b c,
  str_leb a b = true → str_leb b c = true → str_leb a c = true.
Proof.
  induction a as [|x a IH]; intros [|y b] [|z c]; simpl; try done.
  destruct (Z.ltb_spec x y), (Z.ltb_spec y z), (Z.ltb_spec x z); try done; try lia.
  all: destruct (Z.ltb_spec y x); try done; try lia.
  all: destruct (Z.ltb_spec z y); try done; try lia.
  all: destruct (Z.ltb_spec z x); try done; try lia.
  apply IH.
Qed.

Lemma row_leb_total o a b : row_leb o a b = false → row_leb o b a = true.
Proof.
  destruct o; simpl; [|apply str_leb_total].
  intros H. apply Z.leb_gt in H. apply Z.leb_le. lia.
Qed.

Lemma row_leb_trans o a b c :
  row_leb o a b = true → row_leb o b c = true → row_leb o a c = true.
Proof.
  destruct o; simpl; [|apply str_leb_trans].
  rewrite !Z.leb_le. lia.
Qed.

Section SortedScan.
Variable leb : idea → idea → bool.
Hypothesis leb_total : ∀ a b, leb a b = false → leb b a = true.
Hypothesis leb_trans : ∀ a b c, leb a b = true → leb b c = true → leb a c = true.

Lemma insert_row_sorted x l :
  StronglySorted (λ a b, leb a b = true) l →
  StronglySorted (λ a b, leb a b = true) (insert_row leb x l).
Proof.
  induction 1 as [|y l Hs IH Hy]; simpl.
  - repeat constructor.
  - destruct (leb x y) eqn:E.
    + constructor; [by constructor|]. constructor; [done|].
      eapply Forall_impl; [exact Hy|]. intros z Hz. by eapply leb_trans.
    + constructor; [done|]. rewrite insert_row_perm. constructor; [|done].
      by apply leb_total.
Qed.

Lemma order_rows_sorted t :
  StronglySorted (λ a b, leb a b = true) (order_rows leb t).
Proof.
  unfold order_rows. induction t as [|x t IH]; simpl; [constructor|].
  by apply insert_row_sorted.
Qed.

(** A row that comes before every row of a list is inserted at its head. *)
Lemma insert_row_first x l :
  Forall (λ y, leb x y = true) l → insert_row leb x l = x :: l.
Proof. destruct 1 as [|y l Hy _]; simpl; [done|]. by rewrite Hy. Qed.

(** Taking rows out of a sorted list commutes with the insertion. *)
Lemma insert_row_filter (P : idea → Prop) `{∀ r, Decision (P r)} x l :
  StronglySorted (λ a b, leb a b = true) l →
  filter P (insert_row leb x l)
  = if decide (P x) then insert_row leb x (filter P l) else filter P l.
Proof.
  induction 1 as [|y l Hs IH Hy]; simpl.
  - rewrite filter_cons, filter_nil. by destruct (decide (P x)).
  - destruct (leb x y) eqn:E.
    + rewrite filter_cons. destruct (decide (P x)); [|done].
      symmetry. apply insert_row_first.
      rewrite Forall_forall. intros z Hz.
      apply list_elem_of_filter in Hz as [_ Hz].
      apply elem_of_cons in Hz as [->|Hz]; [done|].
      rewrite Forall_forall in Hy. eapply leb_trans; [exact E|by apply Hy].
    + rewrite !filter_cons, IH.
      destruct (decide (P x)), (decide (P y)); simpl; try done.
      by rewrite E.
Qed.

Lemma order_rows_filter (P : idea → Prop) `{∀ r, Decision (P r)} t :
  order_rows leb (filter P t) = filter P (order_rows leb t).
Proof.
  induction t as [|x t IH]; [done|].
  change (order_rows leb (x :: t)) with (insert_row leb x (order_rows leb t)).
  rewrite insert_row_filter by apply order_rows_sorted.
  rewrite filter_cons. destruct (decide (P x)); [|done].
  change (order_rows leb (x :: filter P t))
    with (insert_row leb x (order_rows leb (filter P t))).
  by rewrite IH.
Qed.

(** A row appended to the table that comes after every row of it is the
    last row of the scan. *)
Lemma insert_row_snoc y l x :
  leb y x = true → insert_row leb y (l ++ [x]) = insert_row leb y l ++ [x].
Proof.
  intros Hy. induction l as [|z l IH]; simpl; [by rewrite Hy|].
  destruct (leb y z); [done|]. by rewrite IH.
Qed.

Lemma order_rows_snoc t x :
  Forall (λ y, leb y x = true) t →
  order_rows leb (t ++ [x]) = order_rows leb t ++ [x].
Proof.
  unfold order_rows. induction 1 as [|y t Hy _ IH]; simpl; [done|].
  rewrite IH. by apply insert_row_snoc.
Qed.
End SortedScan.

(** X8: a scan returns every row of the table once, sorted on the column
    asked for. *)
Theorem get_ideas_sorted c o :
  get_ideas c o ≡ₚ ideas_table c ∧
  StronglySorted (λ a b, row_leb o a b = true) (get_ideas c o) ∧
  len (get_ideas c o) = len (ideas_table c).
Proof.
  unfold get_ideas. split_and!.
  - apply order_rows_perm.
  - apply order_rows_sorted; [apply row_leb_total|apply row_leb_trans].
  - unfold len. by rewrite order_rows_length.
Qed.

Lemma get_ideas_filter (P : idea → Prop) `{∀ r, Decision (P r)} c o s :
  get_ideas (Conn (filter P (ideas_table c)) s) o = filter P (get_ideas c o).
Proof.
  unfold get_ideas. cbn [ideas_table].
  apply order_rows_filter; [apply row_leb_total|apply row_leb_trans].
Qed.

(** X9: after [delete_idea] both scans are the scans of before without
    the deleted row: the rows that stay keep their order. *)
Theorem scan_after_delete c id o :
  get_ideas (delete_idea c id) o
  = filter (λ r, idea_id r ≠ id) (get_ideas c o).
Proof. apply get_ideas_filter. Qed.

(** * The updates *)

Lemma row_leb_set_info o t n (p q : idea → bool) a b :
  row_leb o (if p a then set_info t n a else a) (if q b then set_info t n b else b)
  = row_leb o a b.
Proof. destruct o; simpl; by destruct (p a), (q b). Qed.

(** The scan of the store after [update_idea_info] is the scan of before
    with the same update. *)
Lemma get_ideas_update_info c id t n o :
  get_ideas (update_idea_info c id t n) o
  = sql_update (set_info t n) id (get_ideas c o).
Proof.
  unfold get_ideas, update_idea_info. cbn [ideas_table]. unfold sql_update.
  apply order_rows_map. intros a b.
  apply (row_leb_set_info o t n (λ r, idea_id r =? id) (λ r, idea_id r =? id)).
Qed.

(** X10: [update_idea_info] writes the title and the notes of the rows
    with the given id and nothing else: ids, positions, dates and flags
    stay, both scans keep their order, every other id is found with the
    row it had, and an id that is not in the table changes nothing. *)
Theorem update_idea_info_frame c id t n :
  (∀ o, get_ideas (update_idea_info c id t n) o
        = sql_update (set_info t n) id (get_ideas c o)) ∧
  ids (ideas_table (update_idea_info c id t n)) = ids (ideas_table c) ∧
  positions (ideas_table (update_idea_info c id t n)) = positions (ideas_table c) ∧
  map created_date (ideas_table (update_idea_info c id t n))
    = map created_date (ideas_table c) ∧
  map archived (ideas_table (update_idea_info c id t n))
    = map archived (ideas_table c) ∧
  find_idea (update_idea_info c id t n) id = set_info t n <$> find_idea c id ∧
  (∀ id', id' ≠ id → find_idea (update_idea_info c id t n) id' = find_idea c id') ∧
  (id ∉ ids (ideas_table c) → update_idea_info c id t n = c).
Proof.
  unfold update_idea_info, find_idea. cbn [ideas_table].
  assert (∀ (A : Type) (g : idea → A),
            (∀ r, g (set_info t n r) = g r) →
            map g (sql_update (set_info t n) id (ideas_table c))
            = map g (ideas_table c)) as Hmap.
  { intros A g Hg. unfold sql_update. rewrite map_map. apply map_ext.
    intros r. by destruct (idea_id r =? id). }
  split_and!.
  - intros o. apply (get_ideas_update_info c id t n o).
  - by apply Hmap.
  - by apply Hmap.
  - by apply Hmap.
  - by apply Hmap.
  - by apply find_after_update.
  - intros id' Hne. by apply find_after_update_other.
  - intros Hnin. destruct c as [tbl s]. cbn [ideas_table sqlite_sequence] in *.
    by rewrite sql_update_fresh.
Qed.

Lemma update_rows_from_rows rl : ∀ k t,
  Forall2 (reordered k rl) t (update_rows_from k rl t).
Proof.
  induction rl as [|x rl IH]; intros k t; cbn [update_rows_from].
  - apply Forall2_same_length_lookup_2; [done|].
    intros i r r' Hr Hr'. simplify_eq. split_and!; [done..|].
    intros Hin. by apply elem_of_nil in Hin.
  - specialize (IH (k + 1) (sql_update (set_pos k) (idea_id x) t)).
    apply Forall2_same_length_lookup_2.
    { apply Forall2_length in IH. rewrite <- IH. unfold sql_update.
      by rewrite length_map. }
    intros i r r' Hr Hr'.
    assert (sql_update (set_pos k) (idea_id x) t !! i
            = Some (if idea_id r =? idea_id x then set_pos k r else r)) as Hr1.
    { unfold sql_update. by rewrite lookup_map, Hr. }
    destruct (Forall2_lookup_lr _ _ _ _ _ _ IH Hr1 Hr') as (Hsame & Hout & Hin).
    assert (idea_id (if idea_id r =? idea_id x then set_pos k r else r) = idea_id r)
      as Hid by (by destruct (idea_id r =? idea_id x)).
    rewrite Hid in Hout, Hin.
    assert (len (x :: rl) = len rl + 1) as Hlen by (unfold len; simpl; lia).
    pose proof (len_nonneg rl) as Hnn.
    split_and!.
    + rewrite Hsame. by destruct (idea_id r =? idea_id x).
    + intros Hnin. unfold ids in Hnin. simpl in Hnin.
      apply not_elem_of_cons in Hnin as [Hne Hnin].
      rewrite (Hout Hnin). by destruct (Z.eqb_spec (idea_id r) (idea_id x)).
    + intros Hin0. rewrite Hlen.
      destruct (decide (idea_id r ∈ ids rl)) as [Hrl|Hrl].
      * specialize (Hin Hrl). lia.
      * rewrite (Hout Hrl).
        destruct (Z.eqb_spec (idea_id r) (idea_id x)) as [E|E]; simpl; [lia|].
        unfold ids in Hin0. simpl in Hin0.
        by apply elem_of_cons in Hin0 as [?|?].
Qed.

Lemma update_idea_order_frame_ids c rl :
  ids (ideas_table (update_idea_order c rl)) = ids (ideas_table c) ∧
  sqlite_sequence (update_idea_order c rl) = sqlite_sequence c.
Proof.
  split; [|done].
  pose proof (update_rows_from_rows rl 0 (ideas_table c)) as H.
  unfold update_idea_order, ids. cbn [ideas_table].
  induction H as [|r r' t t' (Hsame & _) _ IH]; [done|].
  simpl. rewrite IH. f_equal.
  by apply (f_equal idea_id) in Hsame.
Qed.

(** X11: [update_idea_order] changes no column but [pos] and moves no row;
    a row whose id is not in the list keeps its position, and a row whose
    id is in the list gets an index of the list as its position. *)
Theorem update_idea_order_frame c rl :
  Forall2 (reordered 0 rl) (ideas_table c) (ideas_table (update_idea_order c rl)) ∧
  ids (ideas_table (update_idea_order c rl)) = ids (ideas_table c) ∧
  sqlite_sequence (update_idea_order c rl) = sqlite_sequence c ∧
  update_idea_order c [] = c.
Proof.
  split_and!.
  - apply update_rows_from_rows.
  - apply update_idea_order_frame_ids.
  - done.
  - by destruct c.
Qed.

(** * Ideas added one after another *)







Lemma add_ideas_app c items1 items2 :
  add_ideas c (items1 ++ items2) = add_ideas (add_ideas c items1) items2.
Proof. apply fold_left_app. Qed.



(** * What an iteration can do *)

Lemma get_line_raises max keys : ∀ s e,
  get_line_with_esc max s keys = Raises e → e = ValueError.
Proof.
  induction keys as [|ch keys IH]; intros s e H; [done|].
  simpl in H. repeat case_match; simplify_eq; by eauto.
Qed.

Lemma confirm_prompt_no_raise keys e : confirm_prompt keys ≠ Raises e.
Proof. induction keys as [|k keys IH]; simpl; [done|]. by repeat case_match. Qed.

Lemma dialog_raises inp t n e :
  dialog_template_idea inp t n = Raises e → e = ValueError.
Proof.
  unfold dialog_template_idea. intros H.
  destruct (get_line_with_esc (dw - 4) [] (title_keys inp)) as [[typed|]| |] eqn:Hl;
    try done; [|simplify_eq; by eapply get_line_raises].
  destruct (notes_edit inp); [done|].
  destruct (confirm_prompt (confirm_keys inp)) as [[|]| |] eqn:Hc; try done.
  by apply confirm_prompt_no_raise in Hc.
Qed.

Lemma new_idea_dialog_raises inp e :
  new_idea_dialog inp = Raises e → e = ValueError.
Proof. apply dialog_raises. Qed.

Lemma edit_idea_dialog_raises inp t n e :
  edit_idea_dialog inp t n = Raises e → e = ValueError.
Proof. apply dialog_raises. Qed.

Lemma selected_elem_of c o s idea :
  py_getitem (get_ideas c o) s = Some idea → idea ∈ ideas_table c.
Proof.
  intros H. apply py_getitem_elem_of in H. unfold get_ideas in H.
  by rewrite order_rows_perm in H.
Qed.

Lemma selected_not_None {A} (l : list A) s :
  (len l >? 0) = true → py_getitem l (clamp_selection (len l) s) = None → False.
Proof.
  intros Hlen Hnone. apply Z.gtb_lt in Hlen.
  destruct (selected_in_range l s Hlen) as [x Hx]. congruence.
Qed.

(** One iteration from a coherent state: it goes on in a coherent state
    after at most one write, or stops at [q], or the dialog of [a] or [e]
    waits or raises [ValueError]. *)
Lemma loop_body_cases ev st :
  coherent st →
  match loop_body ev st with
  | Continue st' _ => coherent st' ∧ store_write (db st) (db st')
  | Break => key ev = ord "q"
  | Raised e => e = ValueError ∧ moving_idea_index st = None
  | Waiting => moving_idea_index st = None
  end.
Proof.
  intros Hco. unfold coherent in Hco.
  destruct (moving_idea_index st) as [m|] eqn:Hm.
  - destruct Hco as (Ho & rl & Hrl & Hp & Hrange).
    pose proof (moving_step ev st m rl Ho Hm Hrl Hrange) as Hstep.
    destruct (loop_body ev st) as [st' fl| | |]; [|done..].
    destruct Hstep as (_ & Ho' & [(Hdb & m' & rl' & Hm' & Hrl' & Hrange' & Hrs)|Hc]).
    + apply reorder_step_perm in Hrs as [Hp' _]. split.
      * unfold coherent. rewrite Hm'. split; [done|]. exists rl'.
        split_and!; [done| |lia..]. by rewrite Hp', Hdb.
      * rewrite Hdb. constructor.
    + destruct Hc as (_ & _ & Hdb & Hnone & _). split.
      * unfold coherent. by rewrite Hnone.
      * rewrite Hdb. by constructor.
  - unfold loop_body.
    destruct (Z.ltb_spec (visible_of ev) 1).
    { destruct (Z.eqb_spec (key ev) (ord "q")); [done|].
      split; [unfold coherent; by rewrite Hm|constructor]. }
    unfold shown_ideas. rewrite Hm.
    set (ideas := get_ideas (db st) (current_order st)).
    unfold handle_key.
    cbn [refresh_view db current_order moving_idea_index reorder_list
         scroll_offset current_selection].
    rewrite Hm. cbn [is_None]. rewrite !andb_true_r.
    repeat (case_match; simplify_eq/=; try done);
      try (by exfalso; eapply selected_not_None; eauto);
      try match goal with
          | H : new_idea_dialog _ = Raises ?e |- ?e = ValueError ∧ _ =>
              split; [exact (new_idea_dialog_raises _ _ H)|done]
          | H : edit_idea_dialog _ _ _ = Raises ?e |- ?e = ValueError ∧ _ =>
              split; [exact (edit_idea_dialog_raises _ _ _ _ H)|done]
          end;
      try (split; [by unfold coherent|]);
      try (by constructor);
      try (by constructor; eapply selected_elem_of; eauto).
  all: try (by apply Z.eqb_eq).
  all: split; [|by constructor].
  all: unfold coherent;
    cbn [refresh_view db current_order moving_idea_index reorder_list];
    rewrite ?Hm; try done.
  split; [done|]. eexists. split_and!; [done|apply order_rows_perm| |].
  all: apply clamp_selection_range, len_nonneg.
Qed.





(** * Invariants of the store along the loop *)

Lemma filter_map_NoDup {B} (g : idea → B) (P : idea → Prop) `{∀ r, Decision (P r)} t :
  NoDup (map g t) → NoDup (map g (filter P t)).
Proof.
  induction t as [|x t IH]; [done|].
  simpl. rewrite NoDup_cons. intros [Hx Hnd].
  rewrite filter_cons. destruct (decide (P x)); [|by apply IH].
  simpl. apply NoDup_cons. split; [|by apply IH].
  intros Hin. apply Hx.
  apply list_elem_of_In, in_map_iff in Hin as (r & Hr & Hin).
  apply list_elem_of_In, list_elem_of_filter in Hin as [_ Hin].
  rewrite <- Hr. apply list_elem_of_In, in_map, list_elem_of_In, Hin.
Qed.

Lemma sql_update_positions f id t :
  (∀ r, pos (f r) = pos r) → positions (sql_update f id t) = positions t.
Proof.
  intros Hf. unfold positions, sql_update. rewrite map_map. apply map_ext.
  intros r. by destruct (idea_id r =? id).
Qed.

Lemma add_idea_positions c t n d :
  unique_positions c → unique_positions (add_idea c t n d).
Proof.
  unfold unique_positions, add_idea, positions. cbn [ideas_table]. intros Hnd.
  rewrite map_app. apply NoDup_app. split_and!; [done| |apply NoDup_singleton].
  intros p Hp. simpl. rewrite list_elem_of_singleton. intros ->.
  pose proof (select_max_pos_spec (ideas_table c)) as Hmax.
  destruct (select_max_pos (ideas_table c)) as [m|].
  - destruct Hmax as [_ Hall]. rewrite Forall_forall in Hall.
    specialize (Hall _ Hp). simpl in Hall. lia.
  - rewrite Hmax in Hp. by apply elem_of_nil in Hp.
Qed.

Lemma update_idea_order_positions c rl :
  unique_ids c → rl ≡ₚ ideas_table c →
  positions (ideas_table (update_idea_order c rl)) ≡ₚ seqZ 0 (len (ideas_table c)).
Proof.
  intros Hnd Hp. unfold update_idea_order. cbn [ideas_table].
  assert (update_rows_from 0 rl (ideas_table c) ≡ₚ renumber 0 rl) as Hr.
  { apply (update_rows_from_perm rl 0 _ []); simpl; [|done].
    unfold unique_ids, ids in *. by rewrite Hp. }
  unfold positions. rewrite Hr. fold (positions (renumber 0 rl)).
  unfold positions. rewrite renumber_pos. unfold len. by rewrite Hp.
Qed.

(** Each write keeps the ids distinct, the flags 0 or 1 and the positions
    distinct. *)
Lemma store_write_keeps c c' :
  store_write c c' → store_ok c → unique_positions c →
  store_ok c' ∧ unique_positions c'.
Proof.
  intros Hw Hok Hpos. destruct Hw as [|t n d|r Hr|r Hr|r t n Hr|rl Hrl].
  - done.
  - split; [by apply add_idea_ok|by apply add_idea_positions].
  - split; [by apply delete_idea_ok|].
    unfold unique_positions, positions, delete_idea. cbn [ideas_table].
    by apply filter_map_NoDup.
  - split; [by apply toggle_idea_archived_ok|].
    unfold unique_positions, toggle_idea_archived. cbn [ideas_table].
    by rewrite sql_update_positions.
  - split; [by apply update_idea_info_ok|].
    unfold unique_positions, update_idea_info. cbn [ideas_table].
    by rewrite sql_update_positions.
  - split; [by apply update_idea_order_ok|].
    unfold unique_positions.
    rewrite update_idea_order_positions; [apply NoDup_seqZ|by destruct Hok|done].
Qed.

(** X14: along every run of the loop the ids stay distinct, the flags stay
    0 or 1 and the positions stay distinct. *)
Theorem loop_keeps_store_invariants evs : ∀ st st',
  store_ok (db st) → unique_positions (db st) → coherent st →
  main_loop evs st = Some st' →
  store_ok (db st') ∧ unique_positions (db st') ∧ coherent st'.
Proof.
  induction evs as [|ev evs IH]; intros st st' Hok Hpos Hco Hrun; simplify_eq/=; [done|].
  pose proof (loop_body_cases ev st Hco) as Hstep.
  destruct (loop_body ev st) as [st1 fl| | |]; [|done..].
  destruct Hstep as [Hco1 Hw].
  destruct (store_write_keeps _ _ Hw Hok Hpos) as [Hok1 Hpos1].
  by apply (IH st1).
Qed.

Lemma store_ok_abc : store_ok db_abc.
Proof.
  split; [exact unique_ids_abc|]. repeat constructor.
Defined.

Lemma unique_positions_abc : unique_positions db_abc.
Proof. apply (bool_decide_unpack _). exact I. Defined.

Lemma loop_keeps_store_invariants_witness :
  store_ok (db st_acd) ∧ unique_positions (db st_acd) ∧ coherent st_acd.
Proof.
  apply (loop_keeps_store_invariants
           [add_D; press KEY_UP; press KEY_UP; press KEY_DC] (initial_state db_abc)).
  - exact store_ok_abc.
  - exact unique_positions_abc.
  - exact I.
  - reflexivity.
Defined.

Example st_acd_rows : ids (ideas_table (db st_acd)) = [1; 3; 4].
Proof. reflexivity. Qed.

(** * Ids are handed out once *)

Lemma next_rowid_above c : sqlite_sequence c < next_rowid c.
Proof.
  unfold next_rowid.
  destruct (foldr_max_bound (ids (ideas_table c)) (sqlite_sequence c)) as [H _]. lia.
Qed.

(** A write keeps the ids below the counter, never lowers the counter, and
    puts no id into the table that is not above the counter of before. *)
Lemma store_write_ids c c' :
  store_write c c' → ids_bounded c →
  ids_bounded c' ∧ sqlite_sequence c ≤ sqlite_sequence c' ∧
  ∀ i, i ∈ ids (ideas_table c') → i ∈ ids (ideas_table c) ∨ sqlite_sequence c < i.
Proof.
  unfold ids_bounded.
  intros Hw Hb. destruct Hw as [|t n d|r Hr|r Hr|r t n Hr|rl Hrl].
  - split_and!; [done|lia|by left].
  - pose proof (next_rowid_above c) as Hnext.
    unfold add_idea. cbn [ideas_table sqlite_sequence]. unfold ids.
    rewrite map_app. simpl. split_and!; [|lia|].
    + apply Forall_app. split; [|by repeat constructor].
      eapply Forall_impl; [exact Hb|]. simpl. lia.
    + intros i Hi. apply elem_of_app in Hi as [Hi|Hi]; [by left|].
      apply list_elem_of_singleton in Hi as ->. by right.
  - unfold delete_idea. cbn [ideas_table sqlite_sequence].
    assert (∀ i, i ∈ ids (filter (λ r0, idea_id r0 ≠ idea_id r) (ideas_table c))
                 → i ∈ ids (ideas_table c)) as Hsub.
    { intros i Hi. unfold ids in *.
      apply list_elem_of_In, in_map_iff in Hi as (x & <- & Hx).
      apply list_elem_of_In, list_elem_of_filter in Hx as [_ Hx].
      apply list_elem_of_In, in_map, list_elem_of_In, Hx. }
    split_and!; [|lia|by left; apply Hsub].
    rewrite Forall_forall in Hb |- *. intros i Hi. by apply Hb, Hsub.
  - unfold toggle_idea_archived. cbn [ideas_table sqlite_sequence].
    rewrite sql_update_ids by done. split_and!; [done|lia|by left].
  - unfold update_idea_info. cbn [ideas_table sqlite_sequence].
    rewrite sql_update_ids by done. split_and!; [done|lia|by left].
  - destruct (update_idea_order_frame_ids c rl) as [-> ->].
    split_and!; [done|lia|by left].
Qed.

Lemma main_loop_ids evs : ∀ st st',
  ids_bounded (db st) → coherent st → main_loop evs st = Some st' →
  ids_bounded (db st') ∧ sqlite_sequence (db st) ≤ sqlite_sequence (db st') ∧
  ∀ i, i ∈ ids (ideas_table (db st')) →
       i ∈ ids (ideas_table (db st)) ∨ sqlite_sequence (db st) < i.
Proof.
  induction evs as [|ev evs IH]; intros st st' Hb Hco Hrun; simplify_eq/=.
  { split_and!; [done|lia|by left]. }
  pose proof (loop_body_cases ev st Hco) as Hstep.
  destruct (loop_body ev st) as [st1 fl| | |]; [|done..].
  destruct Hstep as [Hco1 Hw].
  destruct (store_write_ids _ _ Hw Hb) as (Hb1 & Hseq1 & Hids1).
  destruct (IH st1 st' Hb1 Hco1 Hrun) as (Hb' & Hseq' & Hids').
  split_and!; [done|lia|].
  intros i Hi. destruct (Hids' i Hi) as [Hi1|Hi1]; [|right; lia].
  destruct (Hids1 i Hi1); [by left|by right].
Qed.

(** X15: an id is handed out once.  Along every run of the loop, an id
    that the counter has passed and that is no longer in the table does
    not come back, and the counter never goes down. *)
Theorem ids_never_reused evs st st' i :
  ids_bounded (db st) → coherent st →
  main_loop evs st = Some st' →
  i ≤ sqlite_sequence (db st) → i ∉ ids (ideas_table (db st)) →
  (i ∉ ids (ideas_table (db st'))) ∧
  sqlite_sequence (db st) ≤ sqlite_sequence (db st') ∧
  ids_bounded (db st').
Proof.
  intros Hb Hco Hrun Hi Hnin.
  destruct (main_loop_ids evs st st' Hb Hco Hrun) as (Hb' & Hseq & Hids).
  split_and!; [|done..].
  intros Hin. destruct (Hids i Hin); [done|lia].
Qed.

Lemma ids_never_reused_witness :
  (2 ∉ ids (ideas_table (db st_ac_d))) ∧
  sqlite_sequence (db (initial_state (delete_idea db_abc 2)))
    ≤ sqlite_sequence (db st_ac_d) ∧
  ids_bounded (db st_ac_d).
Proof.
  apply (ids_never_reused [add_D] (initial_state (delete_idea db_abc 2)) st_ac_d 2).
  - unfold ids_bounded. repeat constructor; vm_compute; discriminate.
  - exact I.
  - reflexivity.
  - vm_compute. discriminate.
  - apply (bool_decide_unpack _). exact I.
Defined.

(** * Keys while an idea is moved *)

(** X16: while an idea is being moved, the keys that add, delete, archive,
    edit or re-sort do nothing: no dialog or prompt is opened, the store,
    the order and the list being reordered stay as they are. *)
Theorem moving_ignores_other_commands st0 st ev :
  moving_from st0 st →
  key ev = ord "o" ∨ key ev = ord "a" ∨ key ev = ord "d" ∨ key ev = ord "e"
  ∨ key ev = KEY_DC ∨ key ev = KEY_BACKSPACE ∨ key ev = 127 →
  ∃ st', loop_body ev st = Continue st' false ∧
         db st' = db st ∧ current_order st' = current_order st ∧
         moving_idea_index st' = moving_idea_index st ∧
         reorder_list st' = reorder_list st.
Proof.
  intros Hmv Hk.
  destruct (moving_from_inv _ _ Hmv) as (_ & Ho & m & rl & Hm & Hrl & _ & Hrange).
  destruct (moving_other_key ev st m rl Ho Hm Hrl Hrange)
    as (st' & Hstep & Hdb & Ho' & Hm' & Hrl').
  1-4: destruct Hk as [-> |[-> |[-> |[-> |[-> |[-> | ->]]]]]]; discriminate.
  exists st'. split_and!; congruence.
Qed.

Lemma moving_ignores_other_commands_witness :
  ∃ st', loop_body add_D st_bac = Continue st' false ∧
         db st' = db st_bac ∧ current_order st' = current_order st_bac ∧
         moving_idea_index st' = moving_idea_index st_bac ∧
         reorder_list st' = reorder_list st_bac.
Proof.
  apply (moving_ignores_other_commands st_abc st_bac add_D).
  - exact moving_abc_bac.
  - right. left. reflexivity.
Defined.

(** * The rows drawn *)

Lemma adjust_scroll_window v s off :
  1 ≤ v → adjust_scroll v s off ≤ s < adjust_scroll v s off + v.
Proof.
  intros Hv. unfold adjust_scroll.
  destruct (Z.ltb_spec s off); [lia|].
  destruct (Z.geb_spec s (off + v)); lia.
Qed.

Lemma adjust_scroll_nonneg v s off :
  0 ≤ s → 0 ≤ off → 1 ≤ v → 0 ≤ adjust_scroll v s off.
Proof.
  intros Hs Hoff Hv. unfold adjust_scroll.
  destruct (Z.ltb_spec s off); [lia|].
  destruct (Z.geb_spec s (off + v)); lia.
Qed.

(** X17: the view computed at the top of an iteration, for a list of [n]
    ideas on a terminal of [max_y] lines with room for at least one idea
    and a scroll offset that is not negative.  The rows drawn are rows of
    the list, at most [visible_ideas] of them; each is drawn, with its
    separator, above the line of the instructions; and when the list is
    not empty the selected idea is one of them. *)
Theorem drawn_rows_in_range max_y n (st : state) :
  let v := (max_y - 2) `div` 2 in
  let st' := refresh_view v n st in
  let drawn := drawn_range v n (scroll_offset st') in
  1 ≤ v → 0 ≤ n → 0 ≤ scroll_offset st →
  0 ≤ scroll_offset st' ∧
  0 ≤ current_selection st' ≤ Z.max 0 (n - 1) ∧
  len drawn ≤ v ∧
  (∀ idx, idx ∈ drawn →
          0 ≤ idx < n ∧
          0 ≤ row_of idx (scroll_offset st') ∧
          row_of idx (scroll_offset st') + 1 < max_y - 2) ∧
  (0 < n → current_selection st' ∈ drawn).
Proof.
  intros v st' drawn Hv Hn Hoff. unfold drawn, drawn_range, st', refresh_view, row_of.
  cbn [scroll_offset current_selection].
  set (sel := clamp_selection n (current_selection st)).
  set (off := adjust_scroll v sel (scroll_offset st)).
  pose proof (clamp_selection_range n (current_selection st) Hn) as Hsel. fold sel in Hsel.
  pose proof (adjust_scroll_window v sel (scroll_offset st) Hv) as Hwin. fold off in Hwin.
  assert (0 ≤ off) as Hoff' by (apply adjust_scroll_nonneg; lia).
  assert (2 * v ≤ max_y - 2) as Hrows.
  { unfold v. pose proof (Z.mul_div_le (max_y - 2) 2). lia. }
  clearbody off sel v. clear st' drawn.
  split_and!; try lia.
  - unfold len. rewrite length_seqZ. lia.
  - intros idx Hidx. apply elem_of_seqZ in Hidx. lia.
  - intros Hpos. apply elem_of_seqZ. lia.
Qed.

Lemma drawn_rows_in_range_witness :
  let v := (24 - 2) `div` 2 in
  let st' := refresh_view v 3 st_abc in
  let drawn := drawn_range v 3 (scroll_offset st') in
  0 ≤ scroll_offset st' ∧
  0 ≤ current_selection st' ≤ Z.max 0 (3 - 1) ∧
  len drawn ≤ v ∧
  (∀ idx, idx ∈ drawn →
          0 ≤ idx < 3 ∧
          0 ≤ row_of idx (scroll_offset st') ∧
          row_of idx (scroll_offset st') + 1 < 24 - 2) ∧
  (0 < 3 → current_selection st' ∈ drawn).
Proof.
  apply (drawn_rows_in_range 24 3 st_abc).
  - vm_compute. discriminate.
  - vm_compute. discriminate.
  - vm_compute. discriminate.
Defined.

(** * Moving an idea by several places *)

Lemma len_cons {A} (x : A) (l : list A) : len (x :: l) = len l + 1.
Proof. unfold len. simpl. lia. Qed.

Lemma swap_neighbours {A} (l1 : list A) a b l2 :
  py_swap (l1 ++ a :: b :: l2) (len l1 + 1) (len l1) = Some (l1 ++ b :: a :: l2) ∧
  py_swap (l1 ++ a :: b :: l2) (len l1) (len l1 + 1) = Some (l1 ++ b :: a :: l2).
Proof.
  pose proof (len_nonneg l1) as Hl1. pose proof (len_nonneg l2) as Hl2.
  assert (len (l1 ++ a :: b :: l2) = len l1 + len l2 + 2) as Hlen
    by (rewrite len_app, !len_cons; lia).
  assert (Z.to_nat (len l1) = length l1) as E0 by (unfold len; lia).
  assert (Z.to_nat (len l1 + 1) = (length l1 + 1)%nat) as E1 by (unfold len; lia).
  assert ((l1 ++ a :: b :: l2) !! length l1 = Some a) as La
    by (by rewrite list_lookup_middle).
  assert ((l1 ++ a :: b :: l2) !! (length l1 + 1)%nat = Some b) as Lb.
  { rewrite lookup_app_r by lia.
    by replace (length l1 + 1 - length l1)%nat with 1%nat by lia. }
  assert (∀ x y, <[length l1 := y]> (<[(length l1 + 1)%nat := x]> (l1 ++ a :: b :: l2))
                 = l1 ++ y :: x :: l2) as Hins1.
  { intros x y. rewrite (insert_app_r_alt l1) by lia.
    replace (length l1 + 1 - length l1)%nat with 1%nat by lia. simpl.
    rewrite (insert_app_r_alt l1) by lia.
    by replace (length l1 - length l1)%nat with 0%nat by lia. }
  assert (∀ x y, <[(length l1 + 1)%nat := y]> (<[length l1 := x]> (l1 ++ a :: b :: l2))
                 = l1 ++ x :: y :: l2) as Hins2.
  { intros x y. rewrite (insert_app_r_alt l1) by lia.
    replace (length l1 - length l1)%nat with 0%nat by lia. simpl.
    rewrite (insert_app_r_alt l1) by lia.
    by replace (length l1 + 1 - length l1)%nat with 1%nat by lia. }
  split.
  - destruct (py_swap_in_range (l1 ++ a :: b :: l2) (len l1 + 1) (len l1))
      as (x & y & Hy & Hx & ->); [lia..|].
    rewrite E0, E1 in *. rewrite Hins1. congruence.
  - destruct (py_swap_in_range (l1 ++ a :: b :: l2) (len l1) (len l1 + 1))
      as (x & y & Hy & Hx & ->); [lia..|].
    rewrite E0, E1 in *. rewrite Hins2. congruence.
Qed.

(** Arrow up with an idea being moved that is not the first one. *)
Lemma up_key_step ev st l1 a b l2 :
  moving_idea_index st = Some (len l1 + 1) →
  reorder_list st = Some (l1 ++ a :: b :: l2) →
  key ev = KEY_UP → 1 ≤ visible_of ev →
  ∃ off, loop_body ev st =
    Continue (State (db st) (current_order st) (len l1) (Some (len l1))
                    (Some (l1 ++ b :: a :: l2)) off) false.
Proof.
  intros Hm Hrl Hk Hv. unfold loop_body.
  destruct (Z.ltb_spec (visible_of ev) 1); [lia|].
  unfold shown_ideas. rewrite Hm, Hrl.
  rewrite (handle_key_moving _ _ _ _ (len l1 + 1)) by done.
  rewrite Hk. cbn [refresh_view db current_order scroll_offset].
  change (KEY_UP =? ord "q") with false. change (KEY_UP =? KEY_RESIZE) with false.
  change (KEY_UP =? KEY_UP) with true. cbn iota.
  pose proof (len_nonneg l1).
  destruct (Z.gtb_spec (len l1 + 1) 0); [|lia].
  replace (len l1 + 1 - 1) with (len l1) by lia.
  destruct (swap_neighbours l1 a b l2) as [-> _]. by eexists.
Qed.

(** Arrow down with an idea being moved that is not the last one. *)
Lemma down_key_step ev st l1 a b l2 :
  moving_idea_index st = Some (len l1) →
  reorder_list st = Some (l1 ++ a :: b :: l2) →
  key ev = KEY_DOWN → 1 ≤ visible_of ev →
  ∃ off, loop_body ev st =
    Continue (State (db st) (current_order st) (len l1 + 1) (Some (len l1 + 1))
                    (Some (l1 ++ b :: a :: l2)) off) false.
Proof.
  intros Hm Hrl Hk Hv. unfold loop_body.
  destruct (Z.ltb_spec (visible_of ev) 1); [lia|].
  unfold shown_ideas. rewrite Hm, Hrl.
  rewrite (handle_key_moving _ _ _ _ (len l1)) by done.
  rewrite Hk. cbn [refresh_view db current_order scroll_offset].
  change (KEY_DOWN =? ord "q") with false. change (KEY_DOWN =? KEY_RESIZE) with false.
  change (KEY_DOWN =? KEY_UP) with false. change (KEY_DOWN =? KEY_DOWN) with true.
  cbn iota.
  pose proof (len_nonneg l1). pose proof (len_nonneg l2).
  destruct (Z.ltb_spec (len l1) (len (l1 ++ a :: b :: l2) - 1)) as [_|Hge].
  2:{ rewrite len_app, !len_cons in Hge. lia. }
  destruct (swap_neighbours l1 a b l2) as [_ ->]. by eexists.
Qed.

(** [k] arrows up take the idea being moved over the [k] ideas before
    it. *)
Lemma ups_rotate mid : ∀ evs st l1 x l2,
  moving_idea_index st = Some (len l1 + len mid) →
  reorder_list st = Some (l1 ++ mid ++ x :: l2) →
  Forall (λ ev, key ev = KEY_UP ∧ 1 ≤ visible_of ev) evs →
  length evs = length mid →
  ∃ st', main_loop evs st = Some st' ∧
         reorder_list st' = Some (l1 ++ x :: mid ++ l2) ∧
         moving_idea_index st' = Some (len l1) ∧
         db st' = db st ∧ current_order st' = current_order st.
Proof.
  induction mid as [|y mid IH] using rev_ind; intros evs st l1 x l2 Hm Hrl Hevs Hlen.
  - destruct evs; [|done]. exists st. split_and!; try done.
    rewrite Hm. f_equal. unfold len at 2. simpl. lia.
  - rewrite length_app in Hlen. simpl in Hlen.
    destruct evs as [|ev evs]; [simpl in Hlen; lia|].
    apply Forall_cons in Hevs as [[Hk Hv] Hevs].
    rewrite <- app_assoc in Hrl. simpl in Hrl. rewrite app_assoc in Hrl.
    destruct (up_key_step ev st (l1 ++ mid) y x l2) as [off Hstep]; try done.
    { rewrite Hm. f_equal. rewrite len_snoc, len_app. lia. }
    cbn [main_loop]. rewrite Hstep.
    destruct (IH evs (State (db st) (current_order st) (len (l1 ++ mid))
                            (Some (len (l1 ++ mid)))
                            (Some ((l1 ++ mid) ++ x :: y :: l2)) off) l1 x (y :: l2))
      as (st' & Hrun & Hrl' & Hm' & Hdb' & Ho').
    + cbn. by rewrite len_app.
    + cbn. by rewrite <- app_assoc.
    + done.
    + simpl in Hlen. lia.
    + exists st'. split_and!; try done.
      rewrite Hrl'. do 2 f_equal. by rewrite <- app_assoc.
Qed.

(** [k] arrows down take it over the [k] ideas after it. *)
Lemma downs_rotate mid : ∀ evs st l1 x l2,
  moving_idea_index st = Some (len l1) →
  reorder_list st = Some (l1 ++ x :: mid ++ l2) →
  Forall (λ ev, key ev = KEY_DOWN ∧ 1 ≤ visible_of ev) evs →
  length evs = length mid →
  ∃ st', main_loop evs st = Some st' ∧
         reorder_list st' = Some (l1 ++ mid ++ x :: l2) ∧
         moving_idea_index st' = Some (len l1 + len mid) ∧
         db st' = db st ∧ current_order st' = current_order st.
Proof.
  induction mid as [|y mid IH]; intros evs st l1 x l2 Hm Hrl Hevs Hlen.
  - destruct evs; [|done]. exists st. split_and!; try done.
    rewrite Hm. f_equal. unfold len at 3. simpl. lia.
  - destruct evs as [|ev evs]; [done|].
    apply Forall_cons in Hevs as [[Hk Hv] Hevs].
    destruct (down_key_step ev st l1 x y (mid ++ l2)) as [off Hstep]; try done.
    cbn [main_loop]. rewrite Hstep.
    destruct (IH evs (State (db st) (current_order st) (len l1 + 1)
                            (Some (len l1 + 1))
                            (Some (l1 ++ y :: x :: mid ++ l2)) off)
                 (l1 ++ [y]) x l2)
      as (st' & Hrun & Hrl' & Hm' & Hdb' & Ho').
    + cbn. by rewrite len_snoc.
    + cbn. by rewrite <- app_assoc.
    + done.
    + simpl in Hlen. lia.
    + exists st'. split_and!; try done.
      * rewrite Hrl'. by rewrite <- app_assoc.
      * rewrite Hm'. f_equal. rewrite len_snoc, len_cons. lia.
Qed.

Lemma main_loop_app evs1 : ∀ evs2 st st1,
  main_loop evs1 st = Some st1 →
  main_loop (evs1 ++ evs2) st = main_loop evs2 st1.
Proof.
  induction evs1 as [|ev evs1 IH]; intros evs2 st st1 Hrun; simplify_eq/=; [done|].
  destruct (loop_body ev st) as [st' fl| | |]; [|done..]. by apply IH.
Qed.

Lemma clamp_selection_in_range n s : 0 ≤ s < n → clamp_selection n s = s.
Proof.
  intros Hs. unfold clamp_selection.
  destruct (Z.geb_spec s n); [lia|]. destruct (Z.ltb_spec s 0); [lia|done].
Qed.

(** A move from a scan [before] with the idea at index [sel] selected:
    the space bar, keys that reorder the list into [after] and leave the
    index at [m'], the space bar. *)
Lemma move_commits st enter keys confirm before after sel m' :
  unique_ids (db st) →
  moving_idea_index st = None → current_order st = ByPos →
  get_ideas (db st) ByPos = before → after ≡ₚ before →
  current_selection st = sel → 0 ≤ sel < len before →
  key enter = ord " " → 1 ≤ visible_of enter →
  (∀ st1, moving_idea_index st1 = Some sel → reorder_list st1 = Some before →
          db st1 = db st → current_order st1 = ByPos →
          ∃ st2, main_loop keys st1 = Some st2 ∧ reorder_list st2 = Some after ∧
                 moving_idea_index st2 = Some m' ∧ db st2 = db st1 ∧
                 current_order st2 = current_order st1) →
  key confirm = ord " " → 1 ≤ visible_of confirm →
  ∃ st', main_loop (enter :: keys ++ [confirm]) st = Some st' ∧
         moving_idea_index st' = None ∧ current_selection st' = m' ∧
         get_ideas (db st') ByPos = renumber 0 after ∧
         ids (get_ideas (db st') ByPos) = ids after.
Proof.
  intros Hnd Hm Ho Hscan Hperm Hsel Hrange Hke Hve Hkeys Hkc Hvc.
  cbn [main_loop]. rewrite enter_move_mode by done. rewrite Hscan, Hsel.
  rewrite clamp_selection_in_range by done.
  set (st1 := State _ _ _ _ _ _).
  destruct (Hkeys st1) as (st2 & Hrun & Hrl2 & Hm2 & Hdb2 & Ho2); [done..|].
  rewrite (main_loop_app keys [confirm] st1 st2 Hrun).
  cbn [main_loop]. rewrite (confirm_move confirm st2 m' after) by done.
  eexists. split; [done|]. cbn [moving_idea_index current_selection db].
  rewrite Hdb2. cbn [st1 db].
  assert (get_ideas (update_idea_order (db st) after) ByPos = renumber 0 after) as E.
  { apply scan_after_update_idea_order; [done|].
    rewrite Hperm, <- Hscan. apply order_rows_perm. }
  rewrite E. split_and!; [done..|]. apply renumber_ids.
Qed.

(** X18: the idea selected in the position order, moved by the space bar,
    [k] arrows up and the space bar, is stored [k] places higher: the [k]
    ideas it passed come right after it, in the order they had, and the
    other ideas stay where they were. *)
Theorem move_up_commits st enter ups confirm l1 mid x l2 :
  unique_ids (db st) →
  moving_idea_index st = None → current_order st = ByPos →
  get_ideas (db st) ByPos = l1 ++ mid ++ x :: l2 →
  current_selection st = len l1 + len mid →
  key enter = ord " " → 1 ≤ visible_of enter →
  Forall (λ ev, key ev = KEY_UP ∧ 1 ≤ visible_of ev) ups →
  length ups = length mid →
  key confirm = ord " " → 1 ≤ visible_of confirm →
  ∃ st', main_loop (enter :: ups ++ [confirm]) st = Some st' ∧
         moving_idea_index st' = None ∧ current_selection st' = len l1 ∧
         get_ideas (db st') ByPos = renumber 0 (l1 ++ x :: mid ++ l2) ∧
         ids (get_ideas (db st') ByPos) = ids (l1 ++ x :: mid ++ l2).
Proof.
  intros Hnd Hm Ho Hscan Hsel Hke Hve Hups Hlen Hkc Hvc.
  pose proof (len_nonneg l1). pose proof (len_nonneg mid). pose proof (len_nonneg l2).
  eapply (move_commits st enter ups confirm (l1 ++ mid ++ x :: l2)); try done.
  - apply Permutation_app_head. apply Permutation_middle.
  - rewrite !len_app, len_cons. lia.
  - intros st1 Hm1 Hrl1 Hdb1 Ho1. by apply ups_rotate.
Qed.

(** X19: the same with [k] arrows down: the idea is stored [k] places
    lower, right after the [k] ideas it passed. *)
Theorem move_down_commits st enter downs confirm l1 mid x l2 :
  unique_ids (db st) →
  moving_idea_index st = None → current_order st = ByPos →
  get_ideas (db st) ByPos = l1 ++ x :: mid ++ l2 →
  current_selection st = len l1 →
  key enter = ord " " → 1 ≤ visible_of enter →
  Forall (λ ev, key ev = KEY_DOWN ∧ 1 ≤ visible_of ev) downs →
  length downs = length mid →
  key confirm = ord " " → 1 ≤ visible_of confirm →
  ∃ st', main_loop (enter :: downs ++ [confirm]) st = Some st' ∧
         moving_idea_index st' = None ∧
         current_selection st' = len l1 + len mid ∧
         get_ideas (db st') ByPos = renumber 0 (l1 ++ mid ++ x :: l2) ∧
         ids (get_ideas (db st') ByPos) = ids (l1 ++ mid ++ x :: l2).
Proof.
  intros Hnd Hm Ho Hscan Hsel Hke Hve Hdowns Hlen Hkc Hvc.
  pose proof (len_nonneg l1). pose proof (len_nonneg mid). pose proof (len_nonneg l2).
  eapply (move_commits st enter downs confirm (l1 ++ x :: mid ++ l2)); try done.
  - apply Permutation_app_head. symmetry. apply Permutation_middle.
  - rewrite len_app, len_cons, len_app. lia.
  - intros st1 Hm1 Hrl1 Hdb1 Ho1. by apply downs_rotate.
Qed.

(** X20: while an idea is moved, [k] arrows up followed by [k] arrows down
    bring the list and the index back to what they were. *)
Theorem move_up_then_down st ups downs l1 mid x l2 :
  moving_idea_index st = Some (len l1 + len mid) →
  reorder_list st = Some (l1 ++ mid ++ x :: l2) →
  Forall (λ ev, key ev = KEY_UP ∧ 1 ≤ visible_of ev) ups →
  Forall (λ ev, key ev = KEY_DOWN ∧ 1 ≤ visible_of ev) downs →
  length ups = length mid → length downs = length mid →
  ∃ st', main_loop (ups ++ downs) st = Some st' ∧
         reorder_list st' = reorder_list st ∧
         moving_idea_index st' = moving_idea_index st ∧
         db st' = db st ∧ current_order st' = current_order st.
Proof.
  intros Hm Hrl Hups Hdowns Hlu Hld.
  destruct (ups_rotate mid ups st l1 x l2) as (st1 & Hrun1 & Hrl1 & Hm1 & Hdb1 & Ho1);
    try done.
  destruct (downs_rotate mid downs st1 l1 x l2)
    as (st2 & Hrun2 & Hrl2 & Hm2 & Hdb2 & Ho2); try done.
  exists st2. rewrite (main_loop_app ups downs st st1 Hrun1).
  split_and!; congruence.
Qed.

Lemma move_up_commits_witness :
  ∃ st', main_loop (press (ord " ") :: [press KEY_UP; press KEY_UP] ++ [press (ord " ")])
                   st_abc_c = Some st' ∧
         moving_idea_index st' = None ∧ current_selection st' = len (@nil idea) ∧
         get_ideas (db st') ByPos = renumber 0 ([] ++ idea_C :: [idea_A; idea_B] ++ []) ∧
         ids (get_ideas (db st') ByPos) = ids ([] ++ idea_C :: [idea_A; idea_B] ++ []).
Proof.
  apply (move_up_commits st_abc_c (press (ord " ")) [press KEY_UP; press KEY_UP]
           (press (ord " ")) [] [idea_A; idea_B] idea_C []).
  - exact unique_ids_abc.
  - reflexivity.
  - reflexivity.
  - reflexivity.
  - reflexivity.
  - reflexivity.
  - vm_compute. discriminate.
  - repeat constructor; vm_compute; discriminate.
  - reflexivity.
  - reflexivity.
  - vm_compute. discriminate.
Defined.

Lemma move_down_commits_witness :
  ∃ st', main_loop (press (ord " ") :: [press KEY_DOWN; press KEY_DOWN] ++ [press (ord " ")])
                   (initial_state db_abc) = Some st' ∧
         moving_idea_index st' = None ∧
         current_selection st' = len (@nil idea) + len [idea_B; idea_C] ∧
         get_ideas (db st') ByPos = renumber 0 ([] ++ [idea_B; idea_C] ++ idea_A :: []) ∧
         ids (get_ideas (db st') ByPos) = ids ([] ++ [idea_B; idea_C] ++ idea_A :: []).
Proof.
  apply (move_down_commits (initial_state db_abc) (press (ord " "))
           [press KEY_DOWN; press KEY_DOWN] (press (ord " "))
           [] [idea_B; idea_C] idea_A []).
  - exact unique_ids_abc.
  - reflexivity.
  - reflexivity.
  - reflexivity.
  - reflexivity.
  - reflexivity.
  - vm_compute. discriminate.
  - repeat constructor; vm_compute; discriminate.
  - reflexivity.
  - reflexivity.
  - vm_compute. discriminate.
Defined.

Lemma move_up_then_down_witness :
  ∃ st', main_loop ([press KEY_UP] ++ [press KEY_DOWN]) st_moving_c = Some st' ∧
         reorder_list st' = reorder_list st_moving_c ∧
         moving_idea_index st' = moving_idea_index st_moving_c ∧
         db st' = db st_moving_c ∧ current_order st' = current_order st_moving_c.
Proof.
  apply (move_up_then_down st_moving_c [press KEY_UP] [press KEY_DOWN]
           [idea_A] [idea_B] idea_C []).
  - reflexivity.
  - reflexivity.
  - repeat constructor; vm_compute; discriminate.
  - repeat constructor; vm_compute; discriminate.
  - reflexivity.
  - reflexivity.
Defined.

(** * The add and delete keys *)

Lemma py_getitem_last {A} (l : list A) (x : A) :
  py_getitem (l ++ [x]) (len l) = Some x.
Proof.
  pose proof (len_nonneg l).
  unfold py_getitem. rewrite py_index_in_range by (rewrite len_snoc; lia).
  simpl. replace (Z.to_nat (len l)) with (length l) by (unfold len; lia).
  by rewrite list_lookup_middle.
Qed.

Lemma adjust_scroll_below v s off : 0 ≤ s → 1 ≤ v → adjust_scroll v s off ≤ s.
Proof.
  intros Hs Hv. unfold adjust_scroll.
  destruct (Z.ltb_spec s off); [lia|].
  destruct (Z.geb_spec s (off + v)); lia.
Qed.

(** The scan of the store after [add_idea], when the new row sorts after
    every row of the table. *)
Lemma scan_after_add c t n d o :
  let new := Idea (next_rowid c) t
                  (match select_max_pos (ideas_table c) with
                   | Some m => m + 1 | None => 0 end) d n 0 in
  Forall (λ r, row_leb o r new = true) (ideas_table c) →
  get_ideas (add_idea c t n d) o = get_ideas c o ++ [new].
Proof.
  intros new Hall. unfold get_ideas, add_idea. cbn [ideas_table].
  by apply order_rows_snoc.
Qed.

(** In the position order the new row always sorts last. *)
Lemma new_row_last_by_pos c :
  Forall (λ r, pos r ≤ match select_max_pos (ideas_table c) with
                        | Some m => m + 1 | None => 0 end) (ideas_table c).
Proof.
  pose proof (select_max_pos_spec (ideas_table c)) as Hmax.
  destruct (select_max_pos (ideas_table c)) as [m|].
  - destruct Hmax as [_ Hall]. unfold positions in Hall. rewrite Forall_map in Hall.
    eapply Forall_impl; [exact Hall|]. simpl. lia.
  - rewrite Hmax. constructor.
Qed.

(** X21: [a] with a confirmed dialog appends the idea to the store and
    selects the last line, which is inside the window; in the position
    order that line shows the new idea, and in the date order it does
    when no idea of the store has a later date than today's. *)
Theorem add_key_selects_new st ev t n :
  moving_idea_index st = None → 1 ≤ visible_of ev → key ev = ord "a" →
  new_idea_dialog (dialog ev) = Returns (Some (t, n)) →
  ∃ st' new,
    loop_body ev st = Continue st' false ∧
    db st' = add_idea (db st) t n (today ev) ∧
    ideas_table (db st') = ideas_table (db st) ++ [new] ∧
    title new = t ∧ notes new = n ∧
    current_order st' = current_order st ∧ moving_idea_index st' = None ∧
    current_selection st' = len (ideas_table (db st)) ∧
    scroll_offset st' ≤ current_selection st' < scroll_offset st' + visible_of ev ∧
    (Forall (λ r, row_leb (current_order st) r new = true) (ideas_table (db st)) →
     py_getitem (get_ideas (db st') (current_order st')) (current_selection st')
     = Some new) ∧
    (current_order st = ByPos →
     py_getitem (get_ideas (db st') ByPos) (current_selection st') = Some new).
Proof.
  intros Hm Hv Hk Hdlg.
  rewrite loop_body_idle by done. cbn zeta.
  set (ideas := get_ideas (db st) (current_order st)).
  unfold handle_key. rewrite Hk.
  cbn [refresh_view db current_order current_selection moving_idea_index
       reorder_list scroll_offset].
  rewrite Hm. change (ord "a" =? ord "q") with false.
  change (ord "a" =? KEY_RESIZE) with false.
  change (ord "a" =? KEY_UP) with false.
  change (ord "a" =? KEY_DOWN) with false.
  change (ord "a" =? ord "o") with false.
  change (ord "a" =? ord "a") with true.
  cbn [orb andb is_None]. rewrite Hdlg.
  set (new := Idea (next_rowid (db st)) t
                   (match select_max_pos (ideas_table (db st)) with
                    | Some m => m + 1 | None => 0 end) (today ev) n 0).
  assert (len (get_ideas (add_idea (db st) t n (today ev)) (current_order st)) - 1
          = len (ideas_table (db st))) as Hsel.
  { unfold get_ideas, len. rewrite order_rows_length. unfold add_idea.
    cbn [ideas_table]. rewrite length_app. simpl. lia. }
  rewrite Hsel.
  assert (len ideas = len (ideas_table (db st))) as Hlen
    by (unfold ideas, get_ideas, len; by rewrite order_rows_length).
  pose proof (len_nonneg (ideas_table (db st))) as Hnn.
  pose proof (clamp_selection_range (len ideas) (current_selection st)
                (len_nonneg ideas)) as Hclamp.
  pose proof (adjust_scroll_below (visible_of ev)
                (clamp_selection (len ideas) (current_selection st))
                (scroll_offset st) (proj1 Hclamp) Hv) as Hoff.
  assert (∀ o, Forall (λ r, row_leb o r new = true) (ideas_table (db st)) →
               py_getitem (get_ideas (add_idea (db st) t n (today ev)) o)
                          (len (ideas_table (db st))) = Some new) as Hlast.
  { intros o Hall. rewrite scan_after_add by done. fold new.
    replace (len (ideas_table (db st))) with (len (get_ideas (db st) o))
      by (unfold get_ideas, len; by rewrite order_rows_length).
    apply py_getitem_last. }
  eexists _, new. split; [reflexivity|].
  cbn [db current_order current_selection moving_idea_index scroll_offset].
  split_and!; try done.
  - destruct (Z.geb_spec (len (ideas_table (db st)))
                (adjust_scroll (visible_of ev)
                   (clamp_selection (len ideas) (current_selection st))
                   (scroll_offset st) + visible_of ev)); lia.
  - destruct (Z.geb_spec (len (ideas_table (db st)))
                (adjust_scroll (visible_of ev)
                   (clamp_selection (len ideas) (current_selection st))
                   (scroll_offset st) + visible_of ev)); lia.
  - apply Hlast.
  - intros Ho. apply Hlast.
    pose proof (new_row_last_by_pos (db st)) as Hall.
    eapply Forall_impl; [exact Hall|]. intros r Hr. simpl. by apply Z.leb_le.
Qed.

Lemma add_key_selects_new_witness :
  ∃ st' new,
    loop_body add_D st_abc = Continue st' false ∧
    db st' = add_idea (db st_abc) (str_of "D") (str_of "n") (today add_D) ∧
    ideas_table (db st') = ideas_table (db st_abc) ++ [new] ∧
    title new = str_of "D" ∧ notes new = str_of "n" ∧
    current_order st' = current_order st_abc ∧ moving_idea_index st' = None ∧
    current_selection st' = len (ideas_table (db st_abc)) ∧
    scroll_offset st' ≤ current_selection st' < scroll_offset st' + visible_of add_D ∧
    (Forall (λ r, row_leb (current_order st_abc) r new = true) (ideas_table (db st_abc)) →
     py_getitem (get_ideas (db st') (current_order st')) (current_selection st')
     = Some new) ∧
    (current_order st_abc = ByPos →
     py_getitem (get_ideas (db st') ByPos) (current_selection st') = Some new).
Proof.
  apply (add_key_selects_new st_abc add_D (str_of "D") (str_of "n")).
  - reflexivity.
  - vm_compute. discriminate.
  - reflexivity.
  - reflexivity.
Defined.

Lemma filter_is_delete l : ∀ i r,
  NoDup (ids l) → l !! i = Some r →
  filter (λ x, idea_id x ≠ idea_id r) l = delete i l.
Proof.
  induction l as [|y l IH]; intros i r Hnd Hi; [done|].
  unfold ids in Hnd. simpl in Hnd. apply NoDup_cons in Hnd as [Hy Hnd].
  destruct i as [|i]; simpl in Hi.
  - injection Hi as ->. rewrite filter_cons_False by (intros ?; congruence).
    simpl. by apply filter_ne_fresh.
  - assert (idea_id y ≠ idea_id r) as Hne.
    { intros E. apply Hy. rewrite E.
      apply list_elem_of_In, in_map, list_elem_of_In.
      by eapply list_elem_of_lookup_2. }
    rewrite filter_cons_True by done. simpl. f_equal. by apply IH.
Qed.

Lemma py_getitem_lookup {A} (l : list A) (i : Z) (x : A) :
  0 ≤ i → py_getitem l i = Some x → l !! Z.to_nat i = Some x ∧ i < len l.
Proof.
  intros Hi. unfold py_getitem, py_index.
  destruct (Z.ltb_spec i 0); [lia|].
  destruct (Z.leb_spec 0 i); [|lia].
  destruct (Z.ltb_spec i (len l)); [|done]. simpl. by intros ->.
Qed.

(** X22: a delete key with no idea being moved deletes the selected idea
    and nothing else: the list shown next is the list shown without that
    line, the scroll offset is 0, and the selection stays on its line,
    which now shows the idea that followed, or goes to the new last line
    when the last idea was deleted. *)
Theorem delete_key_removes_selected st ev idea :
  unique_ids (db st) →
  moving_idea_index st = None → 1 ≤ visible_of ev →
  key ev = KEY_DC ∨ key ev = KEY_BACKSPACE ∨ key ev = 127 →
  let ideas := get_ideas (db st) (current_order st) in
  let sel := clamp_selection (len ideas) (current_selection st) in
  py_getitem ideas sel = Some idea →
  ∃ st',
    loop_body ev st = Continue st' false ∧
    db st' = delete_idea (db st) (idea_id idea) ∧
    current_order st' = current_order st ∧ moving_idea_index st' = None ∧
    scroll_offset st' = 0 ∧
    get_ideas (db st') (current_order st') = delete (Z.to_nat sel) ideas ∧
    (sel < len ideas - 1 →
     current_selection st' = sel ∧
     py_getitem (get_ideas (db st') (current_order st')) sel
     = py_getitem ideas (sel + 1)) ∧
    (sel = len ideas - 1 → current_selection st' = Z.max 0 (len ideas - 2)).
Proof.
  intros Hnd Hm Hv Hk ideas sel Hsel.
  pose proof (clamp_selection_range (len ideas) (current_selection st)
                (len_nonneg ideas)) as Hrange. fold sel in Hrange.
  destruct (py_getitem_lookup ideas sel idea (proj1 Hrange) Hsel) as [Hlook Hlt].
  assert (get_ideas (delete_idea (db st) (idea_id idea)) (current_order st)
          = delete (Z.to_nat sel) ideas) as Hscan.
  { unfold delete_idea. rewrite get_ideas_filter. apply filter_is_delete; [|done].
    unfold ideas, get_ideas, ids. unfold unique_ids, ids in Hnd.
    by rewrite order_rows_perm. }
  assert (len (delete (Z.to_nat sel) ideas) = len ideas - 1) as Hlen.
  { unfold len. rewrite length_delete by (by eexists). unfold len in Hlt. lia. }
  rewrite loop_body_idle by done. cbn zeta. fold ideas.
  unfold handle_key.
  cbn [refresh_view db current_order current_selection moving_idea_index
       reorder_list scroll_offset].
  rewrite Hm. fold sel.
  assert ((key ev =? ord "q") = false ∧ (key ev =? KEY_RESIZE) = false ∧
          (key ev =? KEY_UP) = false ∧ (key ev =? KEY_DOWN) = false ∧
          (key ev =? ord "o") = false ∧ (key ev =? ord "a") = false ∧
          ((key ev =? KEY_DC) || (key ev =? KEY_BACKSPACE) || (key ev =? 127)) = true)
    as (-> & -> & -> & -> & -> & -> & ->)
    by (destruct Hk as [-> |[-> | ->]]; by split_and!).
  cbn [orb andb is_None].
  destruct (Z.gtb_spec (len ideas) 0); [|lia].
  rewrite Hsel, Hscan, Hlen.
  eexists. split; [reflexivity|].
  cbn [db current_order current_selection moving_idea_index scroll_offset].
  rewrite Hscan. split_and!; try done.
  - intros Hnotlast. destruct (Z.geb_spec sel (len ideas - 1)); [lia|].
    split; [done|].
    unfold py_getitem.
    rewrite !py_index_in_range by (rewrite ?Hlen; lia). simpl.
    rewrite list_lookup_delete_ge by lia. f_equal. lia.
  - intros Hlast. destruct (Z.geb_spec sel (len ideas - 1)); [|lia]. f_equal. lia.
Qed.

Lemma delete_key_removes_selected_witness :
  let ideas := get_ideas (db st_abc) (current_order st_abc) in
  let sel := clamp_selection (len ideas) (current_selection st_abc) in
  ∃ st',
    loop_body (press KEY_DC) st_abc = Continue st' false ∧
    db st' = delete_idea (db st_abc) (idea_id idea_B) ∧
    current_order st' = current_order st_abc ∧ moving_idea_index st' = None ∧
    scroll_offset st' = 0 ∧
    get_ideas (db st') (current_order st') = delete (Z.to_nat sel) ideas ∧
    (sel < len ideas - 1 →
     current_selection st' = sel ∧
     py_getitem (get_ideas (db st') (current_order st')) sel
     = py_getitem ideas (sel + 1)) ∧
    (sel = len ideas - 1 → current_selection st' = Z.max 0 (len ideas - 2)).
Proof.
  apply (delete_key_removes_selected st_abc (press KEY_DC) idea_B).
  - exact unique_ids_abc.
  - reflexivity.
  - vm_compute. discriminate.
  - left. reflexivity.
  - reflexivity.
Defined.

(** * The scroll offset *)

Lemma loop_body_scroll ev st st' fl :
  0 ≤ scroll_offset st → loop_body ev st = Continue st' fl → 0 ≤ scroll_offset st'.
Proof.
  intros Hoff. unfold loop_body.
  destruct (Z.ltb_spec (visible_of ev) 1) as [|Hv].
  { destruct (key ev =? ord "q"); by intros [= <- _]. }
  destruct (shown_ideas st) as [ideas|]; [|done].
  pose proof (clamp_selection_range (len ideas) (current_selection st)
                (len_nonneg ideas)) as Hsel.
  pose proof (adjust_scroll_nonneg (visible_of ev) _ (scroll_offset st)
                (proj1 Hsel) Hoff Hv) as Hoff'.
  unfold handle_key.
  cbn [refresh_view db current_order current_selection moving_idea_index
       reorder_list scroll_offset].
  intros Hstep.
  repeat (case_match; simplify_eq/=; try done); lia.
Qed.

(** X23: the scroll offset, 0 when the loop starts, is never negative, so
    the rows are never drawn from a negative index (which Python would
    count from the end of the list). *)
Theorem scroll_offset_never_negative evs : ∀ st st',
  0 ≤ scroll_offset st → main_loop evs st = Some st' → 0 ≤ scroll_offset st'.
Proof.
  induction evs as [|ev evs IH]; intros st st' Hoff Hrun; simplify_eq/=; [done|].
  destruct (loop_body ev st) as [st1 fl| | |] eqn:Hstep; [|done..].
  eapply IH; [|exact Hrun]. by eapply loop_body_scroll.
Qed.

Lemma scroll_offset_never_negative_witness : 0 ≤ scroll_offset st_acd.
Proof.
  apply (scroll_offset_never_negative
           [add_D; press KEY_UP; press KEY_UP; press KEY_DC] (initial_state db_abc)).
  - vm_compute. discriminate.
  - reflexivity.
Defined.

(** * More on the keys of the idle loop *)

Lemma archive_key_twice_witness :
  ∃ st', main_loop [press (ord "d"); press (ord "d")] st_abc = Some st' ∧
         db st' = db st_abc.
Proof.
  apply (archive_key_twice (press (ord "d")) (press (ord "d")) st_abc).
  - exact store_ok_abc.
  - reflexivity.
  - reflexivity.
  - vm_compute. discriminate.
  - reflexivity.
  - vm_compute. discriminate.
Defined.

Lemma dialog_key_writes_after_confirm_witness :
  confirm_prompt (confirm_keys (dialog add_D)) = Returns true.
Proof.
  apply (dialog_key_writes_after_confirm add_D st_abc st_abcd false).
  - reflexivity.
  - left. reflexivity.
  - reflexivity.
  - intros H. apply (f_equal sqlite_sequence) in H. vm_compute in H. discriminate H.
Defined.

(** X26: [e] with a confirmed dialog writes the returned title and notes
    to the selected idea; the selection stays on its line, which shows the
    idea with its new title and notes, and the list keeps its order. *)
Theorem edit_key_updates_selected st ev idea t n :
  moving_idea_index st = None → 1 ≤ visible_of ev → key ev = ord "e" →
  let ideas := get_ideas (db st) (current_order st) in
  let sel := clamp_selection (len ideas) (current_selection st) in
  py_getitem ideas sel = Some idea →
  edit_idea_dialog (dialog ev) (title idea) (notes idea) = Returns (Some (t, n)) →
  ∃ st',
    loop_body ev st = Continue st' false ∧
    db st' = update_idea_info (db st) (idea_id idea) t n ∧
    current_order st' = current_order st ∧ moving_idea_index st' = None ∧
    current_selection st' = sel ∧
    py_getitem (get_ideas (db st') (current_order st')) sel
      = Some (set_info t n idea) ∧
    ids (get_ideas (db st') (current_order st')) = ids ideas.
Proof.
  intros Hm Hv Hk ideas sel Hsel Hdlg.
  rewrite loop_body_idle by done. cbn zeta. fold ideas.
  assert (0 < len ideas) as Hlen.
  { destruct ideas; [|unfold len; simpl; lia].
    unfold py_getitem, py_index in Hsel. by repeat (case_match; simplify_eq/=). }
  unfold handle_key. rewrite Hk.
  cbn [refresh_view db current_order current_selection moving_idea_index
       reorder_list scroll_offset].
  rewrite Hm. change (ord "e" =? ord "q") with false.
  change (ord "e" =? KEY_RESIZE) with false.
  change (ord "e" =? KEY_UP) with false.
  change (ord "e" =? KEY_DOWN) with false.
  change (ord "e" =? ord "o") with false.
  change (ord "e" =? ord "a") with false.
  change (ord "e" =? KEY_DC) with false.
  change (ord "e" =? KEY_BACKSPACE) with false.
  change (ord "e" =? 127) with false.
  change (ord "e" =? ord "d") with false.
  change (ord "e" =? ord "e") with true.
  cbn [orb andb is_None].
  destruct (Z.gtb_spec (len ideas) 0); [|lia].
  fold sel. rewrite Hsel, Hdlg. eexists. split; [reflexivity|].
  cbn [db current_order current_selection moving_idea_index].
  rewrite get_ideas_update_info. fold ideas.
  split_and!; try done.
  - unfold sql_update. rewrite py_getitem_map, Hsel. simpl. by rewrite Z.eqb_refl.
  - by apply sql_update_ids.
Qed.

Lemma edit_key_updates_selected_witness :
  let ideas := get_ideas (db st_abc) (current_order st_abc) in
  let sel := clamp_selection (len ideas) (current_selection st_abc) in
  ∃ st',
    loop_body edit_new st_abc = Continue st' false ∧
    db st' = update_idea_info (db st_abc) (idea_id idea_B) (str_of "New") (str_of "trimmed") ∧
    current_order st' = current_order st_abc ∧ moving_idea_index st' = None ∧
    current_selection st' = sel ∧
    py_getitem (get_ideas (db st') (current_order st')) sel
      = Some (set_info (str_of "New") (str_of "trimmed") idea_B) ∧
    ids (get_ideas (db st') (current_order st')) = ids ideas.
Proof.
  apply (edit_key_updates_selected st_abc edit_new idea_B (str_of "New") (str_of "trimmed")).
  - reflexivity.
  - vm_compute. discriminate.
  - reflexivity.
  - reflexivity.
  - reflexivity.
Defined.

(** X27: for an id that is not in the table, [delete_idea] and
    [toggle_idea_archived] leave the store as it is, and deleting an id a
    second time changes nothing more. *)
Theorem absent_id_writes_nothing c id :
  id ∉ ids (ideas_table c) →
  delete_idea c id = c ∧
  (∀ a, toggle_idea_archived c id a = c) ∧
  (∀ id', delete_idea (delete_idea c id') id' = delete_idea c id').
Proof.
  intros Hnin. destruct c as [t s]. cbn [ideas_table] in Hnin. split_and!.
  - unfold delete_idea. cbn [ideas_table sqlite_sequence].
    by rewrite filter_ne_fresh.
  - intros a. unfold toggle_idea_archived. cbn [ideas_table sqlite_sequence].
    by rewrite sql_update_fresh.
  - intros id'. unfold delete_idea. cbn [ideas_table sqlite_sequence]. f_equal.
    apply filter_ne_fresh. unfold ids. intros Hin.
    apply list_elem_of_In, in_map_iff in Hin as (r & Hr & Hin).
    by apply list_elem_of_In, list_elem_of_filter in Hin as [Hne _].
Qed.

Lemma absent_id_writes_nothing_witness :
  delete_idea db_abc 7 = db_abc ∧
  (∀ a, toggle_idea_archived db_abc 7 a = db_abc) ∧
  (∀ id', delete_idea (delete_idea db_abc id') id' = delete_idea db_abc id').
Proof.
  apply (absent_id_writes_nothing db_abc 7).
  apply (bool_decide_unpack _). exact I.
Defined.
